(** * scripts/cancel_github_workflows.py: a shallow embedding

    The script cancels queued or running GitHub workflow runs of a branch
    or of a pull request.  It talks to GitHub's REST API, whose answers are
    JSON documents that the script inspects dynamically, so the embedding
    works on JSON values and keeps Python's dynamic failures (KeyError,
    TypeError, ValueError) next to the ClickException the script raises
    itself.  The network is a function [server] from the requests made so
    far and the current request to the body it answers; every request is
    appended to a trace, every printed line to a second one. *)

From Stdlib Require Import List String Ascii ZArith Bool Arith Lia.
From Stdlib Require Import Permutation Sorted.
Import ListNotations.
Local Open Scope string_scope.
Local Open Scope list_scope.
Set Warnings "-register-all".


(** ** JSON values, as [requests]' [.json()] hands them to the script

    [JNull] is Python's [None].  A [dict] is kept as its list of items;
    [dict_get] reads the first binding of a key.  Numbers are integers: no
    field that the script reads holds a fraction. *)

Inductive json : Type :=
| JNull
| JBool (b : bool)
| JInt (n : Z)
| JStr (s : string)
| JList (l : list json)
| JDict (d : list (string * json)).

Definition dict : Type := list (string * json).

Fixpoint dict_get (k : string) (d : dict) : option json :=
  match d with
  | [] => None
  | (k', v) :: d' => if String.eqb k k' then Some v else dict_get k d'
  end.

(** [k in d] for a dict [d]. *)
Definition dict_has (k : string) (d : dict) : bool :=
  match dict_get k d with Some _ => true | None => false end.

(** An f-string is kept as its pieces: literal text and the JSON values
    that Python's [format] would render in place. *)
Inductive piece : Type :=
| Lit (s : string)
| Fmt (v : json).

Definition text : Type := list piece.

(** The exceptions that can leave a function of the script. *)
Inductive exn : Type :=
| ClickException (message : text)
| KeyError (key : string)
| TypeError
| ValueError
| AttributeError.

(** Python's [==] on JSON values.  [True == 1] holds in Python, so
    booleans compare with integers through their numeric value.  Two dicts
    are equal when they have as many items and every item of the first is
    bound to an equal value in the second. *)
Fixpoint py_eq (a b : json) {struct a} : bool :=
  match a, b with
  | JNull, JNull => true
  | JBool x, JBool y => Bool.eqb x y
  | JBool x, JInt n => Z.eqb (Z.b2z x) n
  | JInt n, JBool y => Z.eqb n (Z.b2z y)
  | JInt n, JInt m => Z.eqb n m
  | JStr s, JStr t => String.eqb s t
  | JList l, JList l' =>
      (fix all2 (l l' : list json) {struct l} : bool :=
         match l, l' with
         | [], [] => true
         | x :: l, y :: l' => py_eq x y && all2 l l'
         | _, _ => false
         end) l l'
  | JDict d, JDict d' =>
      Nat.eqb (List.length d) (List.length d') &&
      (fix sub (d : list (string * json)) {struct d} : bool :=
         match d with
         | [] => true
         | (k, v) :: d =>
             match dict_get k d' with
             | Some v' => py_eq v v'
             | None => false
             end && sub d
         end) d
  | _, _ => false
  end.

(** Python's [<], the only comparison [sorted] makes.  Strings compare
    character by character, numbers by value, lists lexicographically;
    every other pair raises TypeError. *)
Fixpoint py_lt (a b : json) {struct a} : exn + bool :=
  match a, b with
  | JStr s, JStr t => inr (String.ltb s t)
  | JInt n, JInt m => inr (Z.ltb n m)
  | JBool x, JInt m => inr (Z.ltb (Z.b2z x) m)
  | JInt n, JBool y => inr (Z.ltb n (Z.b2z y))
  | JBool x, JBool y => inr (Z.ltb (Z.b2z x) (Z.b2z y))
  | JList l, JList l' =>
      (fix lex (l l' : list json) {struct l} : exn + bool :=
         match l, l' with
         | [], [] => inr false
         | [], _ :: _ => inr true
         | _ :: _, [] => inr false
         | x :: l, y :: l' => if py_eq x y then lex l l' else py_lt x y
         end) l l'
  | _, _ => inl TypeError
  end.

(** [v[k]] for a string key [k]. *)
Definition getitem (v : json) (k : string) : exn + json :=
  match v with
  | JDict d =>
      match dict_get k d with
      | Some x => inr x
      | None => inl (KeyError k)
      end
  | _ => inl TypeError
  end.

(** The items a [for] loop sees: the elements of a list, the keys of a
    dict, the characters of a string. *)
Definition py_iter (v : json) : exn + list json :=
  match v with
  | JList l => inr l
  | JDict d => inr (map (fun kv => JStr (fst kv)) d)
  | JStr s => inr (map (fun c => JStr (String c "")) (list_ascii_of_string s))
  | _ => inl TypeError
  end.

(** ** Strings

    A string is a sequence of characters with code points below 256. *)

(** [c.isdigit()] for one character: the decimal digits, and the
    superscript digits U+00B2, U+00B3 and U+00B9, which Python counts as
    digits too. *)
Definition is_decimal (c : ascii) : bool :=
  (48 <=? nat_of_ascii c)%nat && (nat_of_ascii c <=? 57)%nat.

Definition is_digit (c : ascii) : bool :=
  is_decimal c
  || (nat_of_ascii c =? 178)%nat
  || (nat_of_ascii c =? 179)%nat
  || (nat_of_ascii c =? 185)%nat.

(** [s.isdigit()]: at least one character, and all of them digits. *)
Definition isdigit (s : string) : bool :=
  match s with
  | EmptyString => false
  | _ => forallb is_digit (list_ascii_of_string s)
  end.

(** The line feed, as a character and as a string. *)
Definition newline : ascii := ascii_of_nat 10.

Definition nl : string := String newline "".

(** [sep in s] for a one-character [sep]. *)
Definition contains (sep : ascii) (s : string) : bool :=
  existsb (Ascii.eqb sep) (list_ascii_of_string s).

(** [s.split(sep, maxsplit)] for a one-character [sep]: at most [maxsplit]
    splits are made, from the left, and the rest of the string is the last
    element. *)
Fixpoint split (sep : ascii) (maxsplit : nat) (s : string) : list string :=
  match s with
  | EmptyString => [""]
  | String c s' =>
      match maxsplit with
      | S m =>
          if Ascii.eqb c sep then "" :: split sep m s'
          else
            match split sep maxsplit s' with
            | h :: t => String c h :: t
            | [] => [String c ""]
            end
      | O => [s]
      end
  end.

(** [s.split(sep)], with no bound on the number of splits. *)
Definition split_all (sep : ascii) (s : string) : list string :=
  split sep (String.length s) s.

(** [sep.join(parts)]. *)
Definition join (sep : string) (parts : list string) : string :=
  String.concat sep parts.

(** ** The world the script runs in *)

Inductive method : Type := GET | POST | DELETE | PUT.

Definition method_name (m : method) : string :=
  match m with
  | GET => "GET"
  | POST => "POST"
  | DELETE => "DELETE"
  | PUT => "PUT"
  end.

(** One request as [request] issues it: the method, the endpoint as the
    caller wrote it (the URL is the fixed base followed by the endpoint
    without its leading slashes) and the query parameters, if any. *)
Record Call : Type := mkCall {
  call_method : method;
  call_endpoint : text;
  call_params : option (list (string * string))
}.

(** The requests issued and the lines printed so far, oldest first. *)
Record World : Type := mkWorld {
  calls : list Call;
  stdout : list text
}.

(** A computation of the script: it either raises or returns, and leaves
    a world behind in both cases. *)
Definition M (A : Type) : Type := World -> (exn + A) * World.

Definition ret {A : Type} (a : A) : M A := fun w => (inr a, w).

Definition raise {A : Type} (e : exn) : M A := fun w => (inl e, w).

Definition bind {A B : Type} (m : M A) (k : A -> M B) : M B :=
  fun w =>
    match m w with
    | (inr a, w') => k a w'
    | (inl e, w') => (inl e, w')
    end.

(** A pure step that may raise. *)
Definition lift {A : Type} (r : exn + A) : M A := fun w => (r, w).

(** [try: body  except ClickException as error: handler(error.message)];
    any other exception passes through. *)
Definition try_except {A : Type} (body : M A) (handler : text -> M A) : M A :=
  fun w =>
    match body w with
    | (inl (ClickException message), w') => handler message w'
    | r => r
    end.

Definition print (line : text) : M unit :=
  fun w => (inr tt, mkWorld (calls w) (stdout w ++ [line])).

Declare Scope py_scope.
Delimit Scope py_scope with py.
Notation "x <- m ;; k" := (bind m (fun x => k))
  (at level 61, m at next level, right associativity) : py_scope.
Notation "m ;; k" := (bind m (fun _ => k))
  (at level 61, right associativity) : py_scope.
Notation "v .[ k ]" := (lift (getitem v k))
  (at level 1, left associativity, format "v .[ k ]") : py_scope.
Local Open Scope py_scope.

(** A list comprehension's [if]: keep the items on which the condition
    holds, evaluating it item by item. *)
Fixpoint filterM {A : Type} (cond : A -> M bool) (l : list A) : M (list A) :=
  match l with
  | [] => ret []
  | x :: l' =>
      b <- cond x ;;
      rest <- filterM cond l' ;;
      ret (if b then x :: rest else rest)
  end.

(** A list comprehension's [for]: run the body for each item in turn and
    concatenate what it yields. *)
Fixpoint for_yield {A B : Type} (l : list A) (body : A -> M (list B))
  : M (list B) :=
  match l with
  | [] => ret []
  | x :: l' =>
      ys <- body x ;;
      rest <- for_yield l' body ;;
      ret (ys ++ rest)
  end.

(** Truth value of an optional string, as [if not github_token] takes it. *)
Definition truthy_str (s : option string) : bool :=
  match s with
  | None | Some "" => false
  | Some _ => true
  end.

(** Truth value of [pr], which is [None] or the dict of a pull request. *)
Definition truthy_dict (d : option dict) : bool :=
  match d with
  | None | Some [] => false
  | Some _ => true
  end.

(** [x is None]. *)
Definition is_none (v : json) : bool :=
  match v with JNull => true | _ => false end.

(** [sorted(runs, key=lambda x: x["created_at"])]: the keys are computed
    first, then the items are ordered with [<] on the keys; items with
    equal keys keep their order.  Two keys that Python cannot compare
    raise TypeError. *)
Fixpoint insert_by_key (kx : json) (x : json) (l : list (json * json))
  : exn + list (json * json) :=
  match l with
  | [] => inr [(kx, x)]
  | (ky, y) :: l' =>
      match py_lt ky kx with
      | inl e => inl e
      | inr true =>
          match insert_by_key kx x l' with
          | inl e => inl e
          | inr r => inr ((ky, y) :: r)
          end
      | inr false => inr ((kx, x) :: l)
      end
  end.

Fixpoint sort_keyed (l : list (json * json)) : exn + list (json * json) :=
  match l with
  | [] => inr []
  | (kx, x) :: l' =>
      match sort_keyed l' with
      | inl e => inl e
      | inr r => insert_by_key kx x r
      end
  end.

Fixpoint keyed (key : string) (l : list json) : exn + list (json * json) :=
  match l with
  | [] => inr []
  | x :: l' =>
      match getitem x key with
      | inl e => inl e
      | inr kx =>
          match keyed key l' with
          | inl e => inl e
          | inr r => inr ((kx, x) :: r)
          end
      end
  end.

Definition sorted (key : string) (l : list json) : exn + list json :=
  match keyed key l with
  | inl e => inl e
  | inr kl =>
      match sort_keyed kl with
      | inl e => inl e
      | inr r => inr (map snd r)
      end
  end.

(** ** The script *)

Section Script.

(** [github_token], read from the environment when the module loads. *)
Variable github_token : option string.

(** GitHub: the JSON object it answers to a request, given the requests
    it has already received. *)
Variable server : list Call -> Call -> dict.

(** [parser.parse(t).astimezone(tz=None).strftime(...)] of dateutil: the
    local rendering of a timestamp, or nothing when the text is no date
    (the parser then raises a ValueError). *)
Variable local_time : string -> option string.

(** [request], lines 17-26. *)
Definition request (m : method) (endpoint : text)
    (params : option (list (string * string))) : M dict :=
  resp <- (fun w =>
             let c := mkCall m endpoint params in
             (inr (server (calls w) c), mkWorld (calls w ++ [c]) (stdout w))) ;;
  if dict_has "message" resp then
    message <- (JDict resp).["message"] ;;
    raise (ClickException
             ([Lit (method_name m); Lit " "] ++ endpoint
              ++ [Lit " >> "; Fmt message; Lit " <<"]))
  else ret resp.

(** [list_runs], lines 29-30. *)
Definition list_runs (repo : string) (params : list (string * string))
  : M dict :=
  request GET [Lit "/repos/"; Lit repo; Lit "/actions/runs"] (Some params).

(** [cancel_run], lines 33-34. *)
Definition cancel_run (repo : string) (run_id : json) : M dict :=
  request POST
    [Lit "/repos/"; Lit repo; Lit "/actions/runs/"; Fmt run_id; Lit "/cancel"]
    None.

(** [get_pull_request], lines 37-38. *)
Definition get_pull_request (repo : string) (pull_number : string) : M dict :=
  request GET [Lit "/repos/"; Lit repo; Lit "/pulls/"; Lit pull_number] None.

(** The condition of the comprehension in [get_runs_by_branch],
    lines 54-55; [and] and [or] evaluate their right operand only when
    the left one does not decide. *)
Definition run_matches (branch user : json) (item : json) : M bool :=
  head_branch <- item.["head_branch"] ;;
  if py_eq head_branch branch then
    if is_none user then ret true
    else
      head_repository <- item.["head_repository"] ;;
      owner <- head_repository.["owner"] ;;
      login <- owner.["login"] ;;
      ret (py_eq user login)
  else ret false.

(** [get_runs_by_branch], lines 41-56. *)
Definition get_runs_by_branch (repo : string) (branch user : json)
    (statuses events : list string) : M (list json) :=
  for_yield events (fun event =>
    for_yield statuses (fun status =>
      resp <- list_runs repo [("event", event); ("status", status)] ;;
      workflow_runs <- (JDict resp).["workflow_runs"] ;;
      items <- lift (py_iter workflow_runs) ;;
      filterM (run_matches branch user) items)).

(** [s.split("\n")] and ["    \n".join(...)] need a string. *)
Definition as_str (v : json) : exn + string :=
  match v with
  | JStr s => inr s
  | _ => inl AttributeError
  end.

(** [print_commit], lines 59-70. *)
Definition print_commit (commit : json) : M unit :=
  message <- commit.["message"] ;;
  message <- lift (as_str message) ;;
  let indented_message :=
    join ("    " ++ nl)%string (split_all newline message) in
  id <- commit.["id"] ;;
  author <- commit.["author"] ;;
  name <- author.["name"] ;;
  author <- commit.["author"] ;;
  email <- author.["email"] ;;
  timestamp <- commit.["timestamp"] ;;
  date <- lift (match timestamp with
                | JStr t =>
                    match local_time t with
                    | Some d => inr d
                    | None => inl ValueError
                    end
                | _ => inl TypeError
                end) ;;
  print [Lit (nl ++ "HEAD ")%string; Fmt id;
         Lit (nl ++ "Author: ")%string; Fmt name; Lit " <"; Fmt email;
         Lit (">" ++ nl ++ "Date:   ")%string; Lit date;
         Lit (nl ++ nl ++ "    ")%string; Lit indented_message;
         Lit nl].

(** Lines 125-128: a branch given as [login:branch] is split into the
    login and the branch. *)
Definition split_user_branch (branch_or_pull : string)
  : exn + (json * string) :=
  let user := JNull in
  let branch := branch_or_pull in
  if contains ":" branch then
    match split ":" 2 branch with
    | [user; branch] => inr (JStr user, branch)
    | _ => inl ValueError
    end
  else inr (user, branch).

(** Lines 103-131: the pull request is fetched when the argument is a
    number, the target is printed, and the runs are queried. *)
Definition select_runs (branch_or_pull repo : string) (event : list string)
    (statuses : list string) : M (list json) :=
  target <-
    (if isdigit branch_or_pull then
       pr <- get_pull_request repo branch_or_pull ;;
       number <- (JDict pr).["number"] ;;
       title <- (JDict pr).["title"] ;;
       ret (Some pr, "pull request", [Lit "#"; Fmt number; Lit " - "; Fmt title])
     else ret (None, "branch", [Lit branch_or_pull])) ;;
  let '(pr, target_type, title) := target in
  print ([Lit (nl ++ "Cancelling workflow runs for ")%string;
          Lit target_type;
          Lit (nl ++ nl ++ "    ")%string]
         ++ title ++ [Lit nl]) ;;
  if truthy_dict pr then
    match pr with
    | Some pr =>
        head <- (JDict pr).["head"] ;;
        ref <- head.["ref"] ;;
        user <- (JDict pr).["user"] ;;
        login <- user.["login"] ;;
        get_runs_by_branch repo ref login statuses event
    | None => ret []
    end
  else
    user_branch <- lift (split_user_branch branch_or_pull) ;;
    let '(user, branch) := user_branch in
    get_runs_by_branch repo (JStr branch_or_pull) user statuses event.

(** The body of the loop of lines 150-159 for one [entry]; it yields the
    new value of [last_sha]. *)
Definition cancel_entry (repo : string) (last_sha : json) (entry : json)
  : M json :=
  head_commit <- entry.["head_commit"] ;;
  id <- head_commit.["id"] ;;
  last_sha <-
    (if negb (py_eq id last_sha) then
       last_sha <- head_commit.["id"] ;;
       print_commit head_commit ;;
       ret last_sha
     else ret last_sha) ;;
  try_except
    (run_id <- entry.["id"] ;;
     cancel_run repo run_id ;;
     name <- entry.["name"] ;;
     print [Lit "[Cancled] "; Fmt name])
    (fun message =>
       name <- entry.["name"] ;;
       print ([Lit "[Cancled] "; Fmt name; Lit " [Error: "]
              ++ message ++ [Lit "]"])) ;;
  ret last_sha.

(** The loop of lines 150-159. *)
Fixpoint cancel_loop (repo : string) (last_sha : json) (runs : list json)
  : M unit :=
  match runs with
  | [] => ret tt
  | entry :: runs' =>
      last_sha <- cancel_entry repo last_sha entry ;;
      cancel_loop repo last_sha runs'
  end.

(** The condition of the comprehension of line 141. *)
Definition other_commit (last_sha : json) (x : json) : M bool :=
  head_commit <- x.["head_commit"] ;;
  id <- head_commit.["id"] ;;
  ret (negb (py_eq id last_sha)).

(** Lines 133-160: the selected runs are sorted, the runs of the latest
    commit are set aside when asked, and the rest is cancelled. *)
Definition cancel_selected (repo : string) (statuses : list string)
    (keep_last : bool) (runs : list json) : M unit :=
  runs <- lift (sorted "created_at" runs) ;;
  match runs with
  | [] =>
      print [Lit "No "; Lit (join " or " statuses);
             Lit (" workflow runs found." ++ nl)%string]
  | _ :: _ =>
      head_commit <- (List.last runs JNull).["head_commit"] ;;
      last_sha <- head_commit.["id"] ;;
      runs <- (if keep_last then filterM (other_commit last_sha) runs
               else ret runs) ;;
      match keep_last, runs with
      | true, [] =>
          print [Lit ("Only the latest runs are in queue. Use --no-keep-last to force cancelling them."
                      ++ nl)%string]
      | _, _ =>
          cancel_loop repo JNull runs ;;
          print [Lit ""]
      end
  end.

(** [cancel_github_workflows], lines 95-160. *)
Definition cancel_github_workflows (branch_or_pull repo : string)
    (event : list string) (keep_last keep_running : bool) : M unit :=
  if negb (truthy_str github_token) then
    raise (ClickException [Lit "Please provide GITHUB_TOKEN as an env variable"])
  else
    let statuses :=
      if keep_running then ["queued"] else ["queued"; "in_progress"] in
    runs <- select_runs branch_or_pull repo event statuses ;;
    cancel_selected repo statuses keep_last runs.

End Script.

(** ** GitHub's records, and the JSON that carries them

    The theorems speak of workflow runs, commits and pull requests as
    records.  [run_json] and its companions are the JSON objects GitHub
    sends for them: the fields the script reads, followed by any others
    ([run_extra], [commit_extra]). *)

Record Commit : Type := mkCommit {
  commit_id : string;
  commit_message : string;
  commit_timestamp : string;
  author_name : string;
  author_email : string;
  commit_extra : dict
}.

(** [owner_login] is the login of the owner of the run's head repository,
    [head_repository.owner.login]: the field that the script compares with
    the actor it filters on. *)
Record WorkflowRun : Type := mkRun {
  run_id : Z;
  run_name : string;
  head_branch : string;
  head_commit : Commit;
  owner_login : string;
  created_at : string;
  run_extra : dict
}.

Record PullRequest : Type := mkPull {
  pr_number : Z;
  pr_title : string;
  pr_head_ref : string;
  pr_user_login : string
}.

Definition commit_json (c : Commit) : json :=
  JDict ([("id", JStr (commit_id c));
          ("message", JStr (commit_message c));
          ("timestamp", JStr (commit_timestamp c));
          ("author", JDict [("name", JStr (author_name c));
                            ("email", JStr (author_email c))])]
         ++ commit_extra c).

Definition run_json (r : WorkflowRun) : json :=
  JDict ([("id", JInt (run_id r));
          ("name", JStr (run_name r));
          ("head_branch", JStr (head_branch r));
          ("head_commit", commit_json (head_commit r));
          ("head_repository",
            JDict [("owner", JDict [("login", JStr (owner_login r))])]);
          ("created_at", JStr (created_at r))]
         ++ run_extra r).

(** The body of [GET /repos/{repo}/actions/runs]. *)
Definition runs_body (rs : list WorkflowRun) : dict :=
  [("total_count", JInt (Z.of_nat (List.length rs)));
   ("workflow_runs", JList (map run_json rs))].

(** The body of [GET /repos/{repo}/pulls/{pull_number}]. *)
Definition pull_body (p : PullRequest) : dict :=
  [("number", JInt (pr_number p));
   ("title", JStr (pr_title p));
   ("head", JDict [("ref", JStr (pr_head_ref p))]);
   ("user", JDict [("login", JStr (pr_user_login p))])].

(** The optional actor filter as the script holds it. *)
Definition opt_json (user : option string) : json :=
  match user with
  | Some u => JStr u
  | None => JNull
  end.

(** The three requests of the script. *)
Definition list_call (repo event status : string) : Call :=
  mkCall GET [Lit "/repos/"; Lit repo; Lit "/actions/runs"]
    (Some [("event", event); ("status", status)]).

Definition cancel_call (repo : string) (r : WorkflowRun) : Call :=
  mkCall POST
    [Lit "/repos/"; Lit repo; Lit "/actions/runs/"; Fmt (JInt (run_id r));
     Lit "/cancel"]
    None.

Definition pull_call (repo pull_number : string) : Call :=
  mkCall GET [Lit "/repos/"; Lit repo; Lit "/pulls/"; Lit pull_number] None.

(** The listing requests of one query, event-major and status-minor. *)
Definition listing_calls (repo : string) (statuses events : list string)
  : list Call :=
  flat_map (fun event => map (list_call repo event) statuses) events.

(** What the listings of one query return, in that order. *)
Definition fetched (pages : string -> string -> list WorkflowRun)
    (statuses events : list string) : list WorkflowRun :=
  flat_map (fun event => flat_map (pages event) statuses) events.

(** The selection rule of section 3: the head branch is the target branch
    and, when an actor is given, the owner login of the run is that one. *)
Definition selects (branch : string) (user : option string) (r : WorkflowRun)
  : bool :=
  String.eqb (head_branch r) branch
  && match user with
     | Some u => String.eqb u (owner_login r)
     | None => true
     end.

(** The text of the ClickException that [request] raises. *)
Definition api_error (m : method) (endpoint : text) (message : json) : text :=
  [Lit (method_name m); Lit " "] ++ endpoint
  ++ [Lit " >> "; Fmt message; Lit " <<"].

(** A call is a cancellation when it is a POST. *)
Definition is_cancel (c : Call) : bool :=
  match call_method c with POST => true | _ => false end.

(** A lookup of a pull request. *)
Definition is_pull_lookup (c : Call) : Prop :=
  exists repo pull_number, c = pull_call repo pull_number.

(** ** The vocabulary of the claims *)

(** GitHub answers the listing of every queried (event, status) pair with
    the runs [pages event status], whatever was requested before. *)
Definition Serves (server : list Call -> Call -> dict) (repo : string)
    (pages : string -> string -> list WorkflowRun)
    (statuses events : list string) : Prop :=
  forall history event status,
    In event events -> In status statuses ->
    server history (list_call repo event status)
    = runs_body (pages event status).

(** A step that only adds requests to the trace. *)
Definition adds_calls (w : World) (cs : list Call) : World :=
  mkWorld (calls w ++ cs) (stdout w).

(** Ascending order of [created_at], runs created at the same time
    keeping their order: what [sorted] computes, on records. *)
Fixpoint insert_run (x : WorkflowRun) (l : list WorkflowRun)
  : list WorkflowRun :=
  match l with
  | [] => [x]
  | y :: l' =>
      if String.ltb (created_at y) (created_at x) then y :: insert_run x l'
      else x :: l
  end.

Fixpoint sort_runs (l : list WorkflowRun) : list WorkflowRun :=
  match l with
  | [] => []
  | x :: l' => insert_run x (sort_runs l')
  end.

(** [a] was not created after [b]. *)
Definition not_after (a b : WorkflowRun) : Prop :=
  String.leb (created_at a) (created_at b) = true.

Definition keyed_run (r : WorkflowRun) : json * json :=
  (JStr (created_at r), run_json r).

(** The commit header that [print_commit] prints. *)
Definition commit_summary (local_time : string -> option string) (c : Commit)
  : text :=
  [Lit (nl ++ "HEAD ")%string; Fmt (JStr (commit_id c));
   Lit (nl ++ "Author: ")%string; Fmt (JStr (author_name c)); Lit " <";
   Fmt (JStr (author_email c));
   Lit (">" ++ nl ++ "Date:   ")%string;
   Lit (match local_time (commit_timestamp c) with Some d => d | None => "" end);
   Lit (nl ++ nl ++ "    ")%string;
   Lit (join ("    " ++ nl)%string (split_all newline (commit_message c)));
   Lit nl].

(** The line that reports one cancellation attempt, given GitHub's answer:
    the run's name alone on success, the name and the error on failure. *)
Definition outcome_line (repo : string) (r : WorkflowRun) (resp : dict) : text :=
  match dict_get "message" resp with
  | Some message =>
      [Lit "[Cancled] "; Fmt (JStr (run_name r)); Lit " [Error: "]
      ++ api_error POST (call_endpoint (cancel_call repo r)) message
      ++ [Lit "]"]
  | None => [Lit "[Cancled] "; Fmt (JStr (run_name r))]
  end.

(** What the loop prints for the runs [rs], when [history] has been
    requested before and [last_sha] is the commit last announced. *)
Fixpoint loop_report (server : list Call -> Call -> dict)
    (local_time : string -> option string) (repo : string)
    (history : list Call) (last_sha : json) (rs : list WorkflowRun)
  : list text :=
  match rs with
  | [] => []
  | r :: rs' =>
      (if py_eq (JStr (commit_id (head_commit r))) last_sha then []
       else [commit_summary local_time (head_commit r)])
      ++ outcome_line repo r (server history (cancel_call repo r))
      :: loop_report server local_time repo (history ++ [cancel_call repo r])
           (JStr (commit_id (head_commit r))) rs'
  end.

(** dateutil can read the commit timestamps of the runs [rs]. *)
Definition Parses (local_time : string -> option string)
    (rs : list WorkflowRun) : Prop :=
  forall r, In r rs -> local_time (commit_timestamp (head_commit r)) <> None.

(** The head-commit id of the run created last. *)
Definition latest_sha (rs : list WorkflowRun) : string :=
  List.last (map (fun r => commit_id (head_commit r)) (sort_runs rs)) "".

(** The runs that are submitted for cancellation, in the order of their
    submission. *)
Definition to_cancel (keep_last : bool) (rs : list WorkflowRun)
  : list WorkflowRun :=
  if keep_last then
    filter (fun r => negb (String.eqb (commit_id (head_commit r)) (latest_sha rs)))
      (sort_runs rs)
  else sort_runs rs.

Definition no_runs_line (statuses : list string) : text :=
  [Lit "No "; Lit (join " or " statuses);
   Lit (" workflow runs found." ++ nl)%string].

Definition only_latest_line : text :=
  [Lit ("Only the latest runs are in queue. Use --no-keep-last to force cancelling them."
        ++ nl)%string].

(** What lines 133-160 print for the selection [rs]. *)
Definition selected_report (server : list Call -> Call -> dict)
    (local_time : string -> option string) (repo : string)
    (statuses : list string) (keep_last : bool) (history : list Call)
    (rs : list WorkflowRun) : list text :=
  match rs with
  | [] => [no_runs_line statuses]
  | _ :: _ =>
      match keep_last, to_cancel keep_last rs with
      | true, [] => [only_latest_line]
      | _, runs =>
          loop_report server local_time repo history JNull runs ++ [[Lit ""]]
      end
  end.

(** Whatever GitHub answers, and whether [m] returns or raises, the
    requests that [m] adds to the trace all satisfy [P]. *)
Definition Emits {A : Type} (P : Call -> Prop) (m : M A) : Prop :=
  forall w, exists cs, calls (snd (m w)) = calls w ++ cs /\ Forall P cs.

(** A listing request of [repo]. *)
Definition is_listing (repo : string) (c : Call) : Prop :=
  exists event status, c = list_call repo event status.

(** The line that announces the target, line 113. *)
Definition target_line (target_type : string) (title : text) : text :=
  [Lit (nl ++ "Cancelling workflow runs for ")%string;
   Lit target_type;
   Lit (nl ++ nl ++ "    ")%string]
  ++ title ++ [Lit nl].

(** A step that only prints. *)
Definition prints (w : World) (lines : list text) : World :=
  mkWorld (calls w) (stdout w ++ lines).

(** The title printed for a pull request. *)
Definition pull_title (p : PullRequest) : text :=
  [Lit "#"; Fmt (JInt (pr_number p)); Lit " - "; Fmt (JStr (pr_title p))].

(** The statuses of line 102. *)
Definition statuses_of (keep_running : bool) : list string :=
  if keep_running then ["queued"] else ["queued"; "in_progress"].

(** A non-empty string of decimal digits. *)
Definition decimal_number (s : string) : Prop :=
  s <> "" /\ Forall (fun c => is_decimal c = true) (list_ascii_of_string s).

(** A non-empty string of digit characters. *)
Definition digit_string (s : string) : Prop :=
  s <> "" /\ Forall (fun c => is_digit c = true) (list_ascii_of_string s).

(** ** The vocabulary of the further properties *)

(** Whatever GitHub answers, an exception that leaves [m] satisfies [Q]. *)
Definition Raises {A : Type} (Q : exn -> Prop) (m : M A) : Prop :=
  forall w e, fst (m w) = inl e -> Q e.

(** A computation that leaves the world as it found it. *)
Definition Silent {A : Type} (m : M A) : Prop :=
  forall w, snd (m w) = w.

(** The exception that [request] raises for a failed request of method
    [m]. *)
Definition api_failure (m : method) (e : exn) : Prop :=
  exists endpoint message, e = ClickException (api_error m endpoint message).

(** Any exception but a ClickException. *)
Definition not_click (e : exn) : Prop :=
  forall message, e <> ClickException message.

(** An exception of the query phase: the failure of a GET request, or no
    ClickException at all. *)
Definition query_error (e : exn) : Prop := api_failure GET e \/ not_click e.

(** The text of the exception of line 100. *)
Definition token_error : text :=
  [Lit "Please provide GITHUB_TOKEN as an env variable"].

(** A request that lines 103-131 can make for the argument
    [branch_or_pull]: the lookup of that pull request, or the listing of
    one of the events and one of the statuses asked for. *)
Definition query_request (repo branch_or_pull : string)
    (events statuses : list string) (c : Call) : Prop :=
  c = pull_call repo branch_or_pull
  \/ exists event status,
       In event events /\ In status statuses
       /\ c = list_call repo event status.

(** A request to cancel some run of [repo]. *)
Definition cancel_request (repo : string) (c : Call) : Prop :=
  exists run_id,
    c = mkCall POST
          [Lit "/repos/"; Lit repo; Lit "/actions/runs/"; Fmt run_id;
           Lit "/cancel"]
          None.



(** [s] with four spaces put before each of its line feeds. *)
Fixpoint pad_breaks (s : string) : string :=
  match s with
  | EmptyString => EmptyString
  | String c s' =>
      if Ascii.eqb c newline then ("    " ++ String newline (pad_breaks s'))%string
      else String c (pad_breaks s')
  end.

(** A JSON object without the key [k]. *)
Definition lacks (k : string) (v : json) : Prop :=
  exists d, v = JDict d /\ dict_get k d = None.

(** A JSON object. *)
Definition is_object (v : json) : Prop := exists d, v = JDict d.

(** ** A GitHub to run the command against *)

Definition not_found : dict := [("message", JStr "Not Found")].

(** A GitHub that lists the runs [pages], knows the pull requests [pull]
    and refuses to cancel the runs on which [refused] gives a message. *)
Definition github (pages : string -> string -> list WorkflowRun)
    (pull : string -> option PullRequest) (refused : Z -> option string)
  : list Call -> Call -> dict :=
  fun _ c =>
    match call_method c, call_endpoint c, call_params c with
    | GET, [Lit _; Lit _; Lit _], Some [(_, event); (_, status)] =>
        runs_body (pages event status)
    | GET, [Lit _; Lit _; Lit _; Lit pull_number], None =>
        match pull pull_number with
        | Some p => pull_body p
        | None => not_found
        end
    | POST, [Lit _; Lit _; Lit _; Fmt (JInt id); Lit _], None =>
        match refused id with
        | Some message => [("message", JStr message)]
        | None => []
        end
    | _, _, _ => not_found
    end.

Definition superset : string := "apache/incubator-superset".

Definition no_pull (n : string) : option PullRequest := None.

Definition accepts (id : Z) : option string := None.

Definition same_text (t : string) : option string := Some t.

Definition commit_of (sha : string) : Commit :=
  mkCommit sha "Fix the build" "2020-09-01T10:00:00Z" "Alice"
    "alice@example.org" [].

Definition run_of (id : Z) (name branch sha login created : string)
  : WorkflowRun :=
  mkRun id name branch (commit_of sha) login created [].

Definition start : World := mkWorld [] [].

(** Three runs of [feature-x], the two latest on one commit, and a run of
    another branch. *)
Definition run41 : WorkflowRun :=
  run_of 41 "build" "feature-x" "def456" "alice" "2020-09-01T10:00:00Z".
Definition run42 : WorkflowRun :=
  run_of 42 "lint" "feature-x" "abc123" "alice" "2020-09-01T11:00:00Z".
Definition run43 : WorkflowRun :=
  run_of 43 "tests" "feature-x" "abc123" "bob" "2020-09-01T12:00:00Z".
Definition run50 : WorkflowRun :=
  run_of 50 "build" "master" "fff000" "bob" "2020-09-01T09:00:00Z".

Definition feature_pages (event status : string) : list WorkflowRun :=
  if String.eqb status "queued" then
    if String.eqb event "push" then [run43; run50; run41]
    else if String.eqb event "pull_request" then [run42]
    else []
  else [].

(** GitHub reports run 42 for both events. *)
Definition double_pages (event status : string) : list WorkflowRun :=
  if String.eqb status "queued" then
    if String.eqb event "push" then [run42]
    else if String.eqb event "pull_request" then [run42]
    else []
  else [].

(** Alice's run of [my-branch]. *)
Definition run7 : WorkflowRun :=
  run_of 7 "build" "my-branch" "0a1b2c" "alice" "2020-09-01T10:00:00Z".

Definition my_branch_pages (event status : string) : list WorkflowRun :=
  if String.eqb status "queued" then
    if String.eqb event "push" then [run7] else []
  else [].

(** A run that names no head branch, next to a run of [feature-x]. *)
Definition run9 : WorkflowRun :=
  run_of 9 "nightly" "" "9f8e7d" "carol" "2020-09-01T08:00:00Z".

Definition nightly_pages (event status : string) : list WorkflowRun :=
  if String.eqb status "queued" then
    if String.eqb event "push" then [run9; run41] else []
  else [].

Definition pull123 : PullRequest := mkPull 123 "Fix the build" "my-branch" "alice".

Definition pulls (n : string) : option PullRequest :=
  if String.eqb n "123" then Some pull123 else None.

Definition refuses42 (id : Z) : option string :=
  if Z.eqb id 42 then Some "Not Found" else None.

(** A commit whose message has two lines. *)
Definition two_line_commit : Commit :=
  mkCommit "abc123" ("Fix the build" ++ nl ++ "and the docs")%string
    "2020-09-01T10:00:00Z" "Alice" "alice@example.org" [].

(** * Properties *)

(** ** The monad *)

Lemma bind_inr {A B : Type} {m : M A} (k : A -> M B) {w w' : World} {a : A} :
  m w = (inr a, w') -> bind m k w = k a w'.
Proof. intros H. unfold bind. now rewrite H. Qed.

Lemma bind_ret {A B : Type} (a : A) (k : A -> M B) (w : World) :
  bind (ret a) k w = k a w.
Proof. reflexivity. Qed.

Lemma bind_lift_inr {A B : Type} (a : A) (k : A -> M B) (w : World) :
  bind (lift (inr a)) k w = k a w.
Proof. reflexivity. Qed.

Lemma bind_assoc {A B C : Type} (m : M A) (k : A -> M B) (h : B -> M C)
    (w : World) :
  bind (bind m k) h w = bind m (fun a => bind (k a) h) w.
Proof. unfold bind. destruct (m w) as [[e|a] w']; reflexivity. Qed.

Lemma filterM_pure {A B : Type} (cond : B -> M bool) (p : A -> bool)
    (enc : A -> B) (l : list A) (w : World) :
  (forall x, cond (enc x) w = (inr (p x), w)) ->
  filterM cond (map enc l) w = (inr (map enc (filter p l)), w).
Proof.
  intros Hc. induction l as [|x l IH]; [reflexivity|].
  cbn [map filterM filter].
  rewrite (bind_inr _ (Hc x)), (bind_inr _ IH).
  unfold ret. now destruct (p x).
Qed.

(** ** The API client *)

Section Client.

Variable server : list Call -> Call -> dict.

(** What [request] does, case by case on the answer. *)
Lemma request_run (m : method) (endpoint : text)
    (params : option (list (string * string))) (w : World) :
  request server m endpoint params w =
  (match dict_get "message" (server (calls w) (mkCall m endpoint params)) with
   | Some message => inl (ClickException (api_error m endpoint message))
   | None => inr (server (calls w) (mkCall m endpoint params))
   end,
   mkWorld (calls w ++ [mkCall m endpoint params]) (stdout w)).
Proof.
  unfold request, bind, dict_has, lift, raise, ret, getitem, api_error.
  destruct (dict_get "message" (server (calls w) (mkCall m endpoint params)));
    reflexivity.
Qed.

(** C6.  [request] raises a ClickException exactly when the body that
    GitHub answered has a top-level [message] field, and the exception
    then carries the method, the endpoint and that message; otherwise it
    returns the body as it is.  The HTTP status is never looked at.  In
    both cases exactly one request has been issued. *)
Theorem request_fails_iff_message :
  forall (m : method) (endpoint : text)
         (params : option (list (string * string))) (w : World),
    let c := mkCall m endpoint params in
    let resp := server (calls w) c in
    snd (request server m endpoint params w)
      = mkWorld (calls w ++ [c]) (stdout w)
    /\ fst (request server m endpoint params w)
       = match dict_get "message" resp with
         | Some message => inl (ClickException (api_error m endpoint message))
         | None => inr resp
         end
    /\ ((exists e, fst (request server m endpoint params w) = inl e)
        <-> dict_has "message" resp = true)
    /\ (dict_has "message" resp = false
        <-> fst (request server m endpoint params w) = inr resp).
Proof.
  intros m endpoint params w c resp.
  rewrite request_run. fold c. fold resp. cbn [fst snd].
  unfold dict_has.
  destruct (dict_get "message" resp) as [message|].
  - repeat split; try discriminate; eauto.
  - repeat split; try discriminate; intros [e He]; discriminate.
Qed.

End Client.

(** ** The run query *)

Lemma adds_calls_nil (w : World) : adds_calls w [] = w.
Proof. destruct w as [cs out]. unfold adds_calls. cbn. now rewrite app_nil_r. Qed.

Lemma adds_calls_app (w : World) (cs cs' : list Call) :
  adds_calls (adds_calls w cs) cs' = adds_calls w (cs ++ cs').
Proof. unfold adds_calls. cbn. now rewrite app_assoc. Qed.

Lemma for_yield_run {A B : Type} (body : A -> M (list B))
    (out : A -> list B) (tr : A -> list Call) (l : list A) :
  (forall x w0, In x l -> body x w0 = (inr (out x), adds_calls w0 (tr x))) ->
  forall w,
    for_yield l body w = (inr (flat_map out l), adds_calls w (flat_map tr l)).
Proof.
  induction l as [|x l IH]; intros Hbody w.
  - cbn. now rewrite adds_calls_nil.
  - cbn [for_yield flat_map].
    rewrite (bind_inr _ (Hbody x w (or_introl eq_refl))).
    rewrite (bind_inr _ (IH (fun y w0 Hy => Hbody y w0 (or_intror Hy)) _)).
    unfold ret. now rewrite adds_calls_app.
Qed.

Lemma run_matches_run (branch : string) (user : option string)
    (r : WorkflowRun) (w : World) :
  run_matches (JStr branch) (opt_json user) (run_json r) w
  = (inr (selects branch user r), w).
Proof.
  unfold run_matches, selects, bind, lift, ret. cbn.
  destruct (String.eqb (head_branch r) branch); [|reflexivity].
  destruct user as [u|]; reflexivity.
Qed.

Lemma flat_map_filter_map {A B C : Type} (f : A -> list B) (p : B -> bool)
    (g : B -> C) (l : list A) :
  flat_map (fun x => map g (filter p (f x))) l
  = map g (filter p (flat_map f l)).
Proof.
  induction l as [|x l IH]; [reflexivity|].
  cbn [flat_map]. now rewrite filter_app, map_app, IH.
Qed.

Lemma flat_map_single {A B : Type} (f : A -> B) (l : list A) :
  flat_map (fun x => [f x]) l = map f l.
Proof. induction l as [|x l IH]; [reflexivity|]. cbn. now rewrite IH. Qed.

Section Query.

Variable server : list Call -> Call -> dict.
Variable repo : string.
Variable pages : string -> string -> list WorkflowRun.
Variables statuses events : list string.

Hypothesis served : Serves server repo pages statuses events.

Lemma get_runs_by_branch_run (branch : string) (user : option string)
    (w : World) :
  get_runs_by_branch server repo (JStr branch) (opt_json user)
    statuses events w
  = (inr (map run_json
            (filter (selects branch user) (fetched pages statuses events))),
     adds_calls w (listing_calls repo statuses events)).
Proof.
  unfold get_runs_by_branch, fetched, listing_calls.
  rewrite (for_yield_run _
             (fun e => map run_json (filter (selects branch user)
                                       (flat_map (pages e) statuses)))
             (fun e => map (list_call repo e) statuses)).
  - now rewrite flat_map_filter_map.
  - intros e w0 He.
    rewrite (for_yield_run _
               (fun s => map run_json (filter (selects branch user) (pages e s)))
               (fun s => [list_call repo e s])).
    + now rewrite flat_map_filter_map, flat_map_single.
    + intros s w1 Hs.
      unfold list_runs.
      erewrite bind_inr; cycle 1.
      { rewrite request_run. fold (list_call repo e s).
        rewrite (served (calls w1) e s He Hs). cbn. reflexivity. }
      unfold bind, lift. cbn.
      apply filterM_pure. intros r. apply run_matches_run.
Qed.


End Query.

(** ** Sorting by creation time *)

Lemma ltb_false_leb (s t : string) : String.ltb s t = false -> String.leb t s = true.
Proof.
  unfold String.ltb, String.leb. rewrite (String.compare_antisym t s).
  destruct (String.compare s t); cbn; congruence.
Qed.

Lemma ltb_true_leb (s t : string) : String.ltb s t = true -> String.leb s t = true.
Proof.
  unfold String.ltb, String.leb. destruct (String.compare s t); congruence.
Qed.

Lemma insert_run_perm (x : WorkflowRun) (l : list WorkflowRun) :
  Permutation (insert_run x l) (x :: l).
Proof.
  induction l as [|y l IH]; cbn; [reflexivity|].
  destruct (String.ltb (created_at y) (created_at x)); [|reflexivity].
  rewrite IH. apply perm_swap.
Qed.

Lemma sort_runs_perm (l : list WorkflowRun) : Permutation (sort_runs l) l.
Proof.
  induction l as [|x l IH]; cbn; [reflexivity|].
  rewrite insert_run_perm. now constructor.
Qed.

Lemma insert_run_sorted (x : WorkflowRun) (l : list WorkflowRun) :
  Sorted not_after l -> Sorted not_after (insert_run x l).
Proof.
  induction l as [|y l IH]; intros Hs; cbn.
  - repeat constructor.
  - destruct (String.ltb (created_at y) (created_at x)) eqn:E.
    + inversion Hs as [|? ? Hl Hhd]; subst. constructor; [now apply IH|].
      destruct l as [|z l]; cbn.
      * constructor. now apply ltb_true_leb.
      * destruct (String.ltb (created_at z) (created_at x)).
        -- constructor. now inversion Hhd.
        -- constructor. now apply ltb_true_leb.
    + constructor; [assumption|]. constructor. now apply ltb_false_leb.
Qed.

Lemma sort_runs_sorted (l : list WorkflowRun) : Sorted not_after (sort_runs l).
Proof.
  induction l as [|x l IH]; cbn; [constructor | now apply insert_run_sorted].
Qed.

Lemma sort_runs_nil (l : list WorkflowRun) : sort_runs l = [] -> l = [].
Proof.
  intros H. apply Permutation_nil. rewrite <- H. apply sort_runs_perm.
Qed.

Lemma keyed_run_json (rs : list WorkflowRun) :
  keyed "created_at" (map run_json rs) = inr (map keyed_run rs).
Proof.
  induction rs as [|r rs IH]; [reflexivity|].
  cbn [map keyed]. rewrite IH. reflexivity.
Qed.

Lemma insert_by_key_run (x : WorkflowRun) (l : list WorkflowRun) :
  insert_by_key (JStr (created_at x)) (run_json x) (map keyed_run l)
  = inr (map keyed_run (insert_run x l)).
Proof.
  induction l as [|y l IH]; [reflexivity|].
  cbn [map insert_by_key insert_run keyed_run py_lt].
  fold (keyed_run y).
  destruct (String.ltb (created_at y) (created_at x)).
  - rewrite IH. reflexivity.
  - reflexivity.
Qed.

Lemma sort_keyed_run (rs : list WorkflowRun) :
  sort_keyed (map keyed_run rs) = inr (map keyed_run (sort_runs rs)).
Proof.
  induction rs as [|r rs IH]; [reflexivity|].
  cbn [map sort_keyed sort_runs keyed_run]. rewrite IH.
  apply insert_by_key_run.
Qed.

(** On the JSON of runs, [sorted] orders them as [sort_runs] does. *)
Lemma sorted_run_json (rs : list WorkflowRun) :
  sorted "created_at" (map run_json rs) = inr (map run_json (sort_runs rs)).
Proof.
  unfold sorted. rewrite keyed_run_json, sort_keyed_run.
  rewrite map_map. reflexivity.
Qed.

(** ** The cancellation loop *)

Lemma py_eq_str_eq (s : string) (v : json) :
  py_eq (JStr s) v = true -> v = JStr s.
Proof.
  destruct v; cbn; try discriminate.
  intros H. apply String.eqb_eq in H. now subst.
Qed.

Lemma run_head_commit (r : WorkflowRun) :
  getitem (run_json r) "head_commit" = inr (commit_json (head_commit r)).
Proof. reflexivity. Qed.

Lemma run_id_field (r : WorkflowRun) :
  getitem (run_json r) "id" = inr (JInt (run_id r)).
Proof. reflexivity. Qed.

Lemma run_name_field (r : WorkflowRun) :
  getitem (run_json r) "name" = inr (JStr (run_name r)).
Proof. reflexivity. Qed.

Lemma commit_id_field (c : Commit) :
  getitem (commit_json c) "id" = inr (JStr (commit_id c)).
Proof. reflexivity. Qed.

Section Loop.

Variable server : list Call -> Call -> dict.
Variable local_time : string -> option string.
Variable repo : string.

Lemma print_commit_run (c : Commit) (w : World) :
  local_time (commit_timestamp c) <> None ->
  print_commit local_time (commit_json c) w
  = (inr tt, mkWorld (calls w) (stdout w ++ [commit_summary local_time c])).
Proof.
  intros Ht. unfold print_commit, commit_summary, bind, lift, print. cbn.
  destruct (local_time (commit_timestamp c)) as [d|]; [reflexivity | congruence].
Qed.

Lemma attempt_run (r : WorkflowRun) (w : World) :
  try_except
    (run_id <- (run_json r).["id"] ;;
     cancel_run server repo run_id ;;
     name <- (run_json r).["name"] ;;
     print [Lit "[Cancled] "; Fmt name])
    (fun message =>
       name <- (run_json r).["name"] ;;
       print ([Lit "[Cancled] "; Fmt name; Lit " [Error: "]
              ++ message ++ [Lit "]"])) w
  = (inr tt,
     mkWorld (calls w ++ [cancel_call repo r])
       (stdout w
        ++ [outcome_line repo r (server (calls w) (cancel_call repo r))])).
Proof.
  unfold try_except.
  rewrite run_id_field, bind_lift_inr.
  unfold cancel_run. unfold bind at 1. rewrite request_run.
  fold (cancel_call repo r). unfold outcome_line.
  destruct (dict_get "message" (server (calls w) (cancel_call repo r)))
    as [message|].
  - rewrite run_name_field, bind_lift_inr. reflexivity.
  - rewrite run_name_field, bind_lift_inr. reflexivity.
Qed.

Lemma cancel_entry_run (last_sha : json) (r : WorkflowRun) (w : World) :
  local_time (commit_timestamp (head_commit r)) <> None ->
  cancel_entry server local_time repo last_sha (run_json r) w
  = (inr (JStr (commit_id (head_commit r))),
     mkWorld (calls w ++ [cancel_call repo r])
       (stdout w
        ++ (if py_eq (JStr (commit_id (head_commit r))) last_sha then []
            else [commit_summary local_time (head_commit r)])
        ++ [outcome_line repo r (server (calls w) (cancel_call repo r))])).
Proof.
  intros Ht. unfold cancel_entry.
  rewrite run_head_commit, bind_lift_inr.
  rewrite commit_id_field, bind_lift_inr.
  destruct (py_eq (JStr (commit_id (head_commit r))) last_sha) eqn:E;
    cbn [negb].
  - apply py_eq_str_eq in E. subst last_sha.
    rewrite bind_ret. rewrite (bind_inr _ (attempt_run r w)).
    unfold ret. reflexivity.
  - rewrite bind_assoc, bind_lift_inr, bind_assoc.
    rewrite (bind_inr _ (print_commit_run _ _ Ht)).
    rewrite bind_ret. rewrite (bind_inr _ (attempt_run r _)).
    unfold ret. cbn [calls stdout]. now rewrite <- app_assoc.
Qed.

Lemma cancel_loop_run (rs : list WorkflowRun) :
  Parses local_time rs ->
  forall (last_sha : json) (w : World),
    cancel_loop server local_time repo last_sha (map run_json rs) w
    = (inr tt,
       mkWorld (calls w ++ map (cancel_call repo) rs)
         (stdout w
          ++ loop_report server local_time repo (calls w) last_sha rs)).
Proof.
  induction rs as [|r rs IH]; intros Hp last_sha w.
  - cbn. destruct w. now rewrite !app_nil_r.
  - cbn [map cancel_loop loop_report].
    rewrite (bind_inr _ (cancel_entry_run last_sha r w (Hp r (or_introl eq_refl)))).
    rewrite IH by (intros r' Hr'; apply Hp; now right).
    cbn [calls stdout]. f_equal. f_equal.
    + now rewrite <- app_assoc.
    + rewrite <- !app_assoc. reflexivity.
Qed.

End Loop.

(** ** The cancellation driver *)

Lemma last_map {A B : Type} (f : A -> B) (l : list A) (d : A) (d' : B) :
  l <> [] -> List.last (map f l) d' = f (List.last l d).
Proof.
  induction l as [|x l IH]; [congruence|]. intros _.
  destruct l as [|y l]; [reflexivity|].
  change (List.last (map f (y :: l)) d' = f (List.last (y :: l) d)).
  apply IH. discriminate.
Qed.

Lemma other_commit_run (sha : string) (r : WorkflowRun) (w : World) :
  other_commit (JStr sha) (run_json r) w
  = (inr (negb (String.eqb (commit_id (head_commit r)) sha)), w).
Proof.
  unfold other_commit.
  rewrite run_head_commit, bind_lift_inr, commit_id_field, bind_lift_inr.
  reflexivity.
Qed.

Lemma to_cancel_incl (keep_last : bool) (rs : list WorkflowRun) (r : WorkflowRun) :
  In r (to_cancel keep_last rs) -> In r rs.
Proof.
  unfold to_cancel. intros H.
  apply (Permutation_in r (sort_runs_perm rs)).
  destruct keep_last; [now apply filter_In in H | assumption].
Qed.

Section Driver.

Variable server : list Call -> Call -> dict.
Variable local_time : string -> option string.
Variable repo : string.
Variable statuses : list string.

Lemma cancel_selected_run (keep_last : bool) (rs : list WorkflowRun)
    (w : World) :
  Parses local_time (to_cancel keep_last rs) ->
  cancel_selected server local_time repo statuses keep_last (map run_json rs) w
  = (inr tt,
     mkWorld (calls w ++ map (cancel_call repo) (to_cancel keep_last rs))
       (stdout w
        ++ selected_report server local_time repo statuses keep_last
             (calls w) rs)).
Proof.
  intros Hp. unfold cancel_selected.
  rewrite sorted_run_json, bind_lift_inr.
  destruct rs as [|r0 rs0].
  - destruct keep_last; cbn; unfold print; now rewrite app_nil_r.
  - set (rs := r0 :: rs0) in *.
    assert (Hne : sort_runs rs <> []).
    { intros H. apply sort_runs_nil in H. discriminate. }
    destruct (map run_json (sort_runs rs)) as [|j js] eqn:Ej.
    { destruct (sort_runs rs); [congruence | discriminate]. }
    rewrite <- Ej.
    rewrite (last_map run_json (sort_runs rs) r0 JNull Hne).
    rewrite run_head_commit, bind_lift_inr, commit_id_field, bind_lift_inr.
    assert (Hsha : commit_id (head_commit (List.last (sort_runs rs) r0))
                   = latest_sha rs).
    { unfold latest_sha. symmetry.
      exact (last_map (fun r => commit_id (head_commit r)) (sort_runs rs)
               r0 "" Hne). }
    rewrite Hsha.
    unfold selected_report. cbn [rs]. fold rs.
    assert (Hloop : forall runs,
      Parses local_time runs ->
      (cancel_loop server local_time repo JNull (map run_json runs) ;;
       print [Lit ""]) w
      = (inr tt,
         mkWorld (calls w ++ map (cancel_call repo) runs)
           (stdout w
            ++ loop_report server local_time repo (calls w) JNull runs
            ++ [[Lit ""]]))).
    { intros runs Hruns.
      rewrite (bind_inr _ (cancel_loop_run server local_time repo runs
                             Hruns JNull w)).
      unfold print. cbn. now rewrite <- app_assoc. }
    destruct keep_last.
    + rewrite (bind_inr _
                 (filterM_pure (other_commit (JStr (latest_sha rs)))
                    (fun r => negb (String.eqb (commit_id (head_commit r))
                                      (latest_sha rs)))
                    run_json (sort_runs rs) w
                    (fun x => other_commit_run (latest_sha rs) x w))).
      fold (to_cancel true rs).
      destruct (to_cancel true rs) as [|c cs] eqn:Ec.
      * cbn. unfold print. now rewrite app_nil_r.
      * apply (Hloop (c :: cs)), Hp.
    + rewrite bind_ret. rewrite Ej. rewrite <- Ej.
      fold (to_cancel false rs).
      apply Hloop, Hp.
Qed.

End Driver.

(** ** The requests a computation can issue *)

Lemma Emits_silent {A : Type} (P : Call -> Prop) (m : M A) :
  (forall w, calls (snd (m w)) = calls w) -> Emits P m.
Proof.
  intros H w. exists []. rewrite H, app_nil_r. split; [reflexivity | constructor].
Qed.

Lemma Emits_ret {A : Type} (P : Call -> Prop) (a : A) : Emits P (ret a).
Proof. now apply Emits_silent. Qed.

Lemma Emits_raise {A : Type} (P : Call -> Prop) (e : exn) :
  Emits P (raise e : M A).
Proof. now apply Emits_silent. Qed.

Lemma Emits_lift {A : Type} (P : Call -> Prop) (r : exn + A) : Emits P (lift r).
Proof. now apply Emits_silent. Qed.

Lemma Emits_print (P : Call -> Prop) (line : text) : Emits P (print line).
Proof. now apply Emits_silent. Qed.

Lemma Emits_bind {A B : Type} (P : Call -> Prop) (m : M A) (k : A -> M B) :
  Emits P m -> (forall a, Emits P (k a)) -> Emits P (bind m k).
Proof.
  intros Hm Hk w. unfold bind.
  destruct (Hm w) as (cs & Hcs & HP).
  destruct (m w) as [[e|a] w'] eqn:E; cbn [snd] in *.
  - now exists cs.
  - destruct (Hk a w') as (cs' & Hcs' & HP').
    exists (cs ++ cs'). rewrite Hcs', Hcs, app_assoc. split; [reflexivity|].
    apply Forall_app. now split.
Qed.

Lemma Emits_request (P : Call -> Prop) (server : list Call -> Call -> dict)
    (m : method) (endpoint : text) (params : option (list (string * string))) :
  P (mkCall m endpoint params) -> Emits P (request server m endpoint params).
Proof.
  intros HP w. rewrite request_run. cbn [snd calls].
  exists [mkCall m endpoint params]. split; [reflexivity | now repeat constructor].
Qed.

Lemma Emits_filterM {A : Type} (P : Call -> Prop) (cond : A -> M bool)
    (l : list A) :
  (forall x, Emits P (cond x)) -> Emits P (filterM cond l).
Proof.
  intros Hc. induction l as [|x l IH]; cbn [filterM].
  - apply Emits_ret.
  - apply Emits_bind; [apply Hc|]. intros b.
    apply Emits_bind; [apply IH|]. intros rest. apply Emits_ret.
Qed.

Lemma Emits_for_yield {A B : Type} (P : Call -> Prop) (body : A -> M (list B))
    (l : list A) :
  (forall x, Emits P (body x)) -> Emits P (for_yield l body).
Proof.
  intros Hb. induction l as [|x l IH]; cbn [for_yield].
  - apply Emits_ret.
  - apply Emits_bind; [apply Hb|]. intros ys.
    apply Emits_bind; [apply IH|]. intros rest. apply Emits_ret.
Qed.

Lemma Emits_weaken {A : Type} (P Q : Call -> Prop) (m : M A) :
  (forall c, P c -> Q c) -> Emits P m -> Emits Q m.
Proof.
  intros HPQ Hm w. destruct (Hm w) as (cs & Hcs & HP).
  exists cs. split; [assumption|]. revert HP. apply Forall_impl, HPQ.
Qed.

Ltac emits :=
  repeat match goal with
    | |- Emits _ (ret _) => apply Emits_ret
    | |- Emits _ (raise _) => apply Emits_raise
    | |- Emits _ (lift _) => apply Emits_lift
    | |- Emits _ (print _) => apply Emits_print
    | |- Emits _ (bind _ _) => apply Emits_bind; [|intros ?]
    | |- Emits _ (filterM _ _) => apply Emits_filterM; intros ?
    | |- Emits _ (for_yield _ _) => apply Emits_for_yield; intros ?
    end.

Lemma Emits_run_matches (P : Call -> Prop) (branch user item : json) :
  Emits P (run_matches branch user item).
Proof.
  unfold run_matches. emits.
  destruct (py_eq _ _); [destruct (is_none user)|]; emits.
Qed.

(** The run query issues listing requests only. *)
Lemma Emits_get_runs_by_branch (server : list Call -> Call -> dict)
    (repo : string) (branch user : json) (statuses events : list string) :
  Emits (is_listing repo)
    (get_runs_by_branch server repo branch user statuses events).
Proof.
  unfold get_runs_by_branch. emits.
  - unfold list_runs. apply Emits_request. now eexists _, _.
  - apply Emits_run_matches.
Qed.

(** Lines 103-131 issue listing requests, after the lookup of the pull
    request when the argument is a number. *)
Lemma Emits_select_runs (server : list Call -> Call -> dict)
    (branch_or_pull repo : string) (event statuses : list string) :
  Emits (fun c => is_listing repo c
                  \/ (isdigit branch_or_pull = true
                      /\ c = pull_call repo branch_or_pull))
    (select_runs server branch_or_pull repo event statuses).
Proof.
  unfold select_runs. apply Emits_bind.
  - destruct (isdigit branch_or_pull) eqn:E; emits.
    unfold get_pull_request. apply Emits_request. right. now split.
  - intros [[pr target_type] title]. emits.
    destruct (truthy_dict pr).
    + destruct pr as [pr|]; emits.
      eapply Emits_weaken; [|apply Emits_get_runs_by_branch]. now left.
    + emits.
      match goal with x : (_ * _)%type |- _ => destruct x as [user branch] end.
      eapply Emits_weaken; [|apply Emits_get_runs_by_branch]. now left.
Qed.

(** ** Target resolution *)

Lemma contains_cons (sep c : ascii) (s : string) :
  contains sep (String c s) = Ascii.eqb c sep || contains sep s.
Proof. unfold contains. cbn. now rewrite Ascii.eqb_sym. Qed.

Lemma split_no_sep (sep : ascii) (n : nat) (s : string) :
  contains sep s = false -> split sep n s = [s].
Proof.
  revert n. induction s as [|c s IH]; intros n H; [reflexivity|].
  rewrite contains_cons in H. apply orb_false_iff in H as [Hc Hs].
  destruct n as [|n]; [reflexivity|].
  cbn [split]. rewrite Hc. now rewrite (IH (S n) Hs).
Qed.

Lemma split_first (sep : ascii) (n : nat) (u b : string) :
  contains sep u = false ->
  split sep (S n) (u ++ String sep b) = u :: split sep n b.
Proof.
  induction u as [|c u IH]; intros H.
  - cbn. now rewrite Ascii.eqb_refl.
  - rewrite contains_cons in H. apply orb_false_iff in H as [Hc Hu].
    cbn [String.append split]. rewrite Hc. now rewrite (IH Hu).
Qed.

Lemma contains_app_sep (sep : ascii) (u b : string) :
  contains sep (u ++ String sep b) = true.
Proof.
  induction u as [|c u IH]; cbn [String.append]; rewrite contains_cons.
  - now rewrite Ascii.eqb_refl.
  - rewrite IH. apply orb_true_r.
Qed.

Lemma split_once_length (sep : ascii) (s : string) :
  contains sep s = true -> List.length (split sep 1 s) = 2%nat.
Proof.
  induction s as [|c s IH]; [discriminate|].
  rewrite contains_cons. cbn [split].
  destruct (Ascii.eqb c sep); cbn [orb].
  - intros _. destruct s; reflexivity.
  - intros H. specialize (IH H).
    destruct (split sep 1 s) as [|h t]; [discriminate|]. exact IH.
Qed.

(** Every string with a separator is a part without one, the separator,
    and a rest. *)
Lemma contains_decompose (sep : ascii) (s : string) :
  contains sep s = true ->
  exists u b, s = (u ++ String sep b)%string /\ contains sep u = false.
Proof.
  induction s as [|c s IH]; [discriminate|].
  rewrite contains_cons. destruct (Ascii.eqb c sep) eqn:E; cbn [orb].
  - intros _. apply Ascii.eqb_eq in E. subst c. now exists "", s.
  - intros H. destruct (IH H) as (u & b & -> & Hu).
    exists (String c u), b. split; [reflexivity|].
    rewrite contains_cons, E. exact Hu.
Qed.

(** Lines 125-128, case by case on the number of colons. *)
Lemma split_user_branch_none (s : string) :
  contains ":" s = false -> split_user_branch s = inr (JNull, s).
Proof. intros H. unfold split_user_branch. now rewrite H. Qed.

Lemma split_user_branch_one (u b : string) :
  contains ":" u = false -> contains ":" b = false ->
  split_user_branch (u ++ String ":" b) = inr (JStr u, b).
Proof.
  intros Hu Hb. unfold split_user_branch.
  rewrite contains_app_sep, (split_first ":" 1 u b Hu), (split_no_sep ":" 1 b Hb).
  reflexivity.
Qed.

Lemma split_user_branch_more (u b : string) :
  contains ":" u = false -> contains ":" b = true ->
  split_user_branch (u ++ String ":" b) = inl ValueError.
Proof.
  intros Hu Hb. unfold split_user_branch.
  rewrite contains_app_sep, (split_first ":" 1 u b Hu).
  pose proof (split_once_length ":" b Hb) as Hl.
  destruct (split ":" 1 b) as [|x [|y [|z t]]]; try discriminate.
  reflexivity.
Qed.

(** Lines 125-128 on any specifier with a colon: the part before the first
    colon becomes the login when the rest holds no further colon, and the
    split raises otherwise. *)
Lemma split_user_branch_colon (s : string) :
  contains ":" s = true ->
  exists u b,
    s = (u ++ String ":" b)%string
    /\ contains ":" u = false
    /\ split_user_branch s
       = if contains ":" b then inl ValueError else inr (JStr u, b).
Proof.
  intros H. destruct (contains_decompose ":" s H) as (u & b & -> & Hu).
  exists u, b. split; [reflexivity|]. split; [assumption|].
  destruct (contains ":" b) eqn:Hb.
  - now apply split_user_branch_more.
  - now apply split_user_branch_one.
Qed.

Section Resolution.

Variable server : list Call -> Call -> dict.
Variable repo : string.
Variables event statuses : list string.

(** A branch specifier: nothing is looked up, and the query receives the
    argument itself as the branch. *)
Lemma select_runs_branch (branch_or_pull : string) (w : World) :
  isdigit branch_or_pull = false ->
  select_runs server branch_or_pull repo event statuses w
  = match split_user_branch branch_or_pull with
    | inl e => (inl e, prints w [target_line "branch" [Lit branch_or_pull]])
    | inr (user, _) =>
        get_runs_by_branch server repo (JStr branch_or_pull) user
          statuses event
          (prints w [target_line "branch" [Lit branch_or_pull]])
    end.
Proof.
  intros Hd. unfold select_runs. rewrite Hd, bind_ret.
  unfold bind at 1. unfold print at 1. cbn [truthy_dict].
  unfold bind at 1, lift.
  destruct (split_user_branch branch_or_pull) as [e|[user branch]];
    reflexivity.
Qed.

(** A pull-request number: the pull request is looked up first, and the
    query receives its head ref and the login of its author. *)
Lemma select_runs_pull (branch_or_pull : string) (p : PullRequest) (w : World) :
  isdigit branch_or_pull = true ->
  server (calls w) (pull_call repo branch_or_pull) = pull_body p ->
  select_runs server branch_or_pull repo event statuses w
  = get_runs_by_branch server repo (JStr (pr_head_ref p))
      (JStr (pr_user_login p)) statuses event
      (mkWorld (calls w ++ [pull_call repo branch_or_pull])
         (stdout w ++ [target_line "pull request" (pull_title p)])).
Proof.
  intros Hd Hs. unfold select_runs. rewrite Hd.
  unfold get_pull_request.
  rewrite bind_assoc. unfold bind at 1. rewrite request_run.
  fold (pull_call repo branch_or_pull). rewrite Hs.
  reflexivity.
Qed.

End Resolution.

(** ** The claims about the cancellation loop and the driver *)

Lemma loop_report_outcome (server : list Call -> Call -> dict)
    (local_time : string -> option string) (repo : string)
    (pre : list WorkflowRun) (r : WorkflowRun) (post : list WorkflowRun) :
  forall (history : list Call) (last_sha : json),
    In (outcome_line repo r
          (server (history ++ map (cancel_call repo) pre) (cancel_call repo r)))
       (loop_report server local_time repo history last_sha (pre ++ r :: post)).
Proof.
  induction pre as [|x pre IH]; intros history last_sha.
  - cbn [map app loop_report]. rewrite app_nil_r.
    apply in_or_app. right. now left.
  - cbn [map app loop_report].
    apply in_or_app. right. right.
    replace (history ++ cancel_call repo x :: map (cancel_call repo) pre)
      with ((history ++ [cancel_call repo x]) ++ map (cancel_call repo) pre)
      by now rewrite <- app_assoc.
    apply IH.
Qed.

(** C7.  For every list of selected runs, the loop returns normally
    whatever GitHub answers to the cancellations: it requests the
    cancellation of every run, in order, also after a request that failed,
    and it prints for each run the line of its own attempt, which holds
    the run's name and, when GitHub answered with a [message], the error
    raised for it, method, endpoint and message. *)
Theorem failed_cancellation_does_not_stop_the_batch :
  forall (server : list Call -> Call -> dict)
         (local_time : string -> option string) (repo : string)
         (rs : list WorkflowRun) (last_sha : json) (w : World),
    Parses local_time rs ->
    cancel_loop server local_time repo last_sha (map run_json rs) w
    = (inr tt,
       mkWorld (calls w ++ map (cancel_call repo) rs)
         (stdout w ++ loop_report server local_time repo (calls w) last_sha rs))
    /\ forall pre r post,
         rs = pre ++ r :: post ->
         let resp :=
           server (calls w ++ map (cancel_call repo) pre) (cancel_call repo r) in
         In (outcome_line repo r resp)
            (loop_report server local_time repo (calls w) last_sha rs)
         /\ outcome_line repo r resp
            = match dict_get "message" resp with
              | Some message =>
                  [Lit "[Cancled] "; Fmt (JStr (run_name r)); Lit " [Error: ";
                   Lit "POST"; Lit " "; Lit "/repos/"; Lit repo;
                   Lit "/actions/runs/"; Fmt (JInt (run_id r)); Lit "/cancel";
                   Lit " >> "; Fmt message; Lit " <<"; Lit "]"]
              | None => [Lit "[Cancled] "; Fmt (JStr (run_name r))]
              end.
Proof.
  intros server local_time repo rs last_sha w Hp. split.
  - now apply cancel_loop_run.
  - intros pre r post -> resp. split.
    + apply loop_report_outcome.
    + unfold outcome_line. destruct (dict_get "message" resp); reflexivity.
Qed.

Lemma sort_runs_last (rs : list WorkflowRun) :
  rs <> [] ->
  exists earlier latest,
    sort_runs rs = earlier ++ [latest]
    /\ latest_sha rs = commit_id (head_commit latest).
Proof.
  intros Hne.
  assert (Hs : sort_runs rs <> []) by (intros H; now apply sort_runs_nil in H).
  destruct (exists_last Hs) as (earlier & latest & E).
  exists earlier, latest. split; [assumption|].
  unfold latest_sha. rewrite E, map_app. cbn [map]. apply last_last.
Qed.

Lemma to_cancel_true_In (rs : list WorkflowRun) (r : WorkflowRun) :
  In r (to_cancel true rs)
  <-> In r rs /\ commit_id (head_commit r) <> latest_sha rs.
Proof.
  unfold to_cancel. rewrite filter_In, negb_true_iff, String.eqb_neq.
  split; intros [Hin Hc]; (split; [|assumption]).
  - now apply (Permutation_in r (sort_runs_perm rs)).
  - now apply (Permutation_in r (Permutation_sym (sort_runs_perm rs))).
Qed.

(** C5.  For every non-empty selection the driver returns normally and
    the runs it submits for cancellation are, in ascending order of
    creation: with [keep_last], the runs whose head-commit id differs from
    that of the run created last, so that no run of that commit is
    submitted; without it, all the runs, those of that commit included. *)
Theorem keep_last_spares_the_latest_commit :
  forall (server : list Call -> Call -> dict)
         (local_time : string -> option string) (repo : string)
         (statuses : list string) (keep_last : bool)
         (rs : list WorkflowRun) (w : World),
    rs <> [] ->
    Parses local_time rs ->
    cancel_selected server local_time repo statuses keep_last (map run_json rs) w
    = (inr tt,
       mkWorld (calls w ++ map (cancel_call repo) (to_cancel keep_last rs))
         (stdout w
          ++ selected_report server local_time repo statuses keep_last
               (calls w) rs))
    /\ Sorted not_after (sort_runs rs)
    /\ Permutation (sort_runs rs) rs
    /\ (exists earlier latest,
          sort_runs rs = earlier ++ [latest]
          /\ latest_sha rs = commit_id (head_commit latest))
    /\ to_cancel true rs
       = filter (fun r => negb (String.eqb (commit_id (head_commit r))
                                  (latest_sha rs)))
           (sort_runs rs)
    /\ (forall r, In r (to_cancel true rs)
                  <-> In r rs /\ commit_id (head_commit r) <> latest_sha rs)
    /\ to_cancel false rs = sort_runs rs.
Proof.
  intros server local_time repo statuses keep_last rs w Hne Hp.
  split; [|split; [|split; [|split; [|split; [|split]]]]].
  - apply cancel_selected_run.
    intros r Hr. apply Hp. revert Hr. apply to_cancel_incl.
  - apply sort_runs_sorted.
  - apply sort_runs_perm.
  - now apply sort_runs_last.
  - reflexivity.
  - apply to_cancel_true_In.
  - reflexivity.
Qed.

(** ** The claims about the whole command *)

Lemma cancel_github_workflows_run (github_token : option string)
    (server : list Call -> Call -> dict) (local_time : string -> option string)
    (branch_or_pull repo : string) (event : list string)
    (keep_last keep_running : bool) (w : World) :
  truthy_str github_token = true ->
  cancel_github_workflows github_token server local_time branch_or_pull repo
    event keep_last keep_running w
  = bind (select_runs server branch_or_pull repo event (statuses_of keep_running))
      (cancel_selected server local_time repo (statuses_of keep_running) keep_last)
      w.
Proof.
  intros Ht. unfold cancel_github_workflows. now rewrite Ht.
Qed.

Lemma listing_not_cancel (repo : string) (c : Call) :
  is_listing repo c -> is_cancel c = false.
Proof. intros (e & s & ->). reflexivity. Qed.

Lemma listing_not_pull (repo : string) (c : Call) :
  is_listing repo c -> ~ is_pull_lookup c.
Proof. intros (e & s & ->) (r & n & H). discriminate. Qed.

Lemma filter_none {A : Type} (p : A -> bool) (l : list A) :
  Forall (fun x => p x = false) l -> filter p l = [].
Proof.
  induction 1 as [|x l Hx _ IH]; [reflexivity|]. cbn. now rewrite Hx.
Qed.

(** Lines 103-131 request no cancellation. *)
Lemma select_runs_no_cancel (server : list Call -> Call -> dict)
    (branch_or_pull repo : string) (event statuses : list string) (w : World) :
  filter is_cancel
    (calls (snd (select_runs server branch_or_pull repo event statuses w)))
  = filter is_cancel (calls w).
Proof.
  destruct (Emits_select_runs server branch_or_pull repo event statuses w)
    as (cs & -> & HP).
  rewrite filter_app, (filter_none is_cancel cs), app_nil_r; [reflexivity|].
  revert HP. apply Forall_impl. intros c [Hl | [_ ->]].
  - now apply (listing_not_cancel repo).
  - reflexivity.
Qed.

Lemma to_cancel_nil (keep_last : bool) : to_cancel keep_last [] = [].
Proof. now destruct keep_last. Qed.

Lemma to_cancel_all_latest (rs : list WorkflowRun) :
  (forall r, In r rs -> commit_id (head_commit r) = latest_sha rs) ->
  to_cancel true rs = [].
Proof.
  intros H. destruct (to_cancel true rs) as [|r l] eqn:E; [reflexivity|].
  assert (Hr : In r (to_cancel true rs)) by (rewrite E; now left).
  apply to_cancel_true_In in Hr as [Hin Hne]. now apply H in Hin.
Qed.

(** C8.  Whenever the query selects no run, and whenever [keep_last]
    sets every selected run aside because all of them belong to the
    latest commit, the command returns normally: it prints one more line,
    issues no request after the query, and the trace of the whole
    invocation holds no cancellation request that was not there before. *)
Theorem nothing_to_cancel_is_success :
  forall (github_token : option string) (server : list Call -> Call -> dict)
         (local_time : string -> option string)
         (branch_or_pull repo : string) (event : list string)
         (keep_last keep_running : bool)
         (rs : list WorkflowRun) (w w1 : World),
    truthy_str github_token = true ->
    select_runs server branch_or_pull repo event (statuses_of keep_running) w
    = (inr (map run_json rs), w1) ->
    rs = []
    \/ (keep_last = true
        /\ forall r, In r rs -> commit_id (head_commit r) = latest_sha rs) ->
    exists line,
      cancel_github_workflows github_token server local_time branch_or_pull
        repo event keep_last keep_running w
      = (inr tt, prints w1 [line])
      /\ filter is_cancel (calls (prints w1 [line])) = filter is_cancel (calls w).
Proof.
  intros github_token server local_time branch_or_pull repo event keep_last
    keep_running rs w w1 Ht Hsel Hcase.
  assert (Hnone : to_cancel keep_last rs = []).
  { destruct Hcase as [-> | [-> Hall]];
      [apply to_cancel_nil | now apply to_cancel_all_latest]. }
  rewrite (cancel_github_workflows_run _ _ _ _ _ _ _ _ _ Ht).
  rewrite (bind_inr _ Hsel).
  rewrite cancel_selected_run by (rewrite Hnone; intros r []).
  rewrite Hnone. cbn [map]. rewrite app_nil_r.
  pose proof (select_runs_no_cancel server branch_or_pull repo event
                (statuses_of keep_running) w) as Hq.
  rewrite Hsel in Hq. cbn [snd] in Hq.
  unfold selected_report, prints.
  destruct rs as [|r0 rs0].
  - eexists. split; [reflexivity | exact Hq].
  - destruct Hcase as [Hnil | [-> Hall]]; [discriminate|].
    rewrite Hnone. eexists. split; [reflexivity | exact Hq].
Qed.

Lemma NoDup_map_filter {X Y : Type} (key : X -> Y) (keep : X -> bool)
    (xs : list X) (Hnd : NoDup (map key xs)) :
  NoDup (map key (filter keep xs)).
Proof.
  revert Hnd. induction xs as [|x xs IH]; cbn; [trivial|].
  intros H. inversion H as [|? ? Hx Hl]; subst.
  destruct (keep x); [|now apply IH].
  cbn. constructor; [|now apply IH].
  intros Hin. apply Hx. apply in_map_iff in Hin as (y & Hy & Hin).
  apply in_map_iff. exists y. split; [assumption|]. now apply filter_In in Hin.
Qed.

Lemma NoDup_cancel_calls (repo : string) (l : list WorkflowRun) :
  NoDup (map run_id l) -> NoDup (map (cancel_call repo) l).
Proof.
  induction l as [|x l IH]; cbn; [constructor|].
  intros H. inversion H as [|? ? Hx Hl]; subst.
  constructor; [|now apply IH].
  intros Hin. apply Hx. apply in_map_iff in Hin as (y & Hy & Hin).
  apply in_map_iff. exists y. split; [|assumption].
  unfold cancel_call in Hy. now injection Hy.
Qed.

Lemma to_cancel_NoDup (keep_last : bool) (rs : list WorkflowRun) :
  NoDup (map run_id rs) -> NoDup (map run_id (to_cancel keep_last rs)).
Proof.
  intros H.
  assert (Hs : NoDup (map run_id (sort_runs rs))).
  { apply (Permutation_NoDup (l := map run_id rs)); [|assumption].
    apply Permutation_map, Permutation_sym, sort_runs_perm. }
  unfold to_cancel. destruct keep_last; [now apply NoDup_map_filter | assumption].
Qed.

(** C3, as the script has it.  The script removes no duplicate: the runs
    that reach the loop are the selected ones among the fetched runs, each
    as often as it was fetched, less those that [keep_last] sets aside.
    So when no run id occurs twice among the fetched runs, no run id
    reaches the loop twice and no cancellation is requested twice; and
    without [keep_last] the runs submitted are a rearrangement of the
    selected ones, repetitions included. *)
Theorem distinct_run_ids_are_cancelled_once :
  forall (server : list Call -> Call -> dict)
         (local_time : string -> option string) (repo : string)
         (pages : string -> string -> list WorkflowRun)
         (statuses events : list string)
         (branch : string) (user : option string) (keep_last : bool)
         (w : World),
    Serves server repo pages statuses events ->
    Parses local_time (fetched pages statuses events) ->
    let selection :=
      filter (selects branch user) (fetched pages statuses events) in
    (exists out,
       bind (get_runs_by_branch server repo (JStr branch) (opt_json user)
               statuses events)
         (cancel_selected server local_time repo statuses keep_last) w
       = (inr tt,
          mkWorld (calls w ++ listing_calls repo statuses events
                   ++ map (cancel_call repo) (to_cancel keep_last selection))
            (stdout w ++ out)))
    /\ Permutation (to_cancel false selection) selection
    /\ (NoDup (map run_id (fetched pages statuses events)) ->
        NoDup (map run_id (to_cancel keep_last selection))
        /\ NoDup (map (cancel_call repo) (to_cancel keep_last selection))).
Proof.
  intros server local_time repo pages statuses events branch user keep_last w
    Hs Hp selection.
  split; [|split].
  - rewrite (bind_inr _ (get_runs_by_branch_run server repo pages statuses
                           events Hs branch user w)).
    rewrite cancel_selected_run.
    + eexists. unfold adds_calls. cbn [calls stdout].
      rewrite <- app_assoc. reflexivity.
    + intros r Hr. apply Hp. apply to_cancel_incl in Hr.
      now apply filter_In in Hr.
  - apply sort_runs_perm.
  - intros Hnd.
    assert (Hsel : NoDup (map run_id (to_cancel keep_last selection))).
    { apply to_cancel_NoDup. now apply NoDup_map_filter. }
    split; [assumption | now apply NoDup_cancel_calls].
Qed.

(** ** The claims about target resolution *)

Lemma isdigit_spec (s : string) : isdigit s = true <-> digit_string s.
Proof.
  unfold digit_string, isdigit. destruct s as [|c s].
  - split; [discriminate | intros [H _]; congruence].
  - rewrite forallb_forall, Forall_forall. split.
    + intros H. split; [discriminate | exact H].
    + intros [_ H]. exact H.
Qed.

Lemma decimal_number_isdigit (s : string) : decimal_number s -> isdigit s = true.
Proof.
  intros [Hne H]. apply isdigit_spec. split; [assumption|].
  revert H. apply Forall_impl. intros c Hc. unfold is_digit. now rewrite Hc.
Qed.




(** C10.  The empty argument is a branch specifier: it is not a number,
    it holds no login, the query selects exactly the fetched runs whose
    head branch is the empty string, whoever their actor is, and the only
    requests made are the listings. *)
Theorem empty_input_is_a_branch :
  forall (server : list Call -> Call -> dict) (repo : string)
         (pages : string -> string -> list WorkflowRun)
         (statuses events : list string) (w : World),
    Serves server repo pages statuses events ->
    let result := filter (selects "" None) (fetched pages statuses events) in
    isdigit "" = false
    /\ split_user_branch "" = inr (JNull, "")
    /\ select_runs server "" repo events statuses w
       = (inr (map run_json result),
          mkWorld (calls w ++ listing_calls repo statuses events)
            (stdout w ++ [target_line "branch" [Lit ""]]))
    /\ (forall r, In r result
                  <-> In r (fetched pages statuses events) /\ head_branch r = "")
    /\ Forall (fun c => ~ is_pull_lookup c) (listing_calls repo statuses events).
Proof.
  intros server repo pages statuses events w Hs result.
  split; [reflexivity|]. split; [reflexivity|]. split; [|split].
  - rewrite select_runs_branch by reflexivity.
    change (split_user_branch "") with (@inr exn _ (opt_json None, "")).
    cbv iota beta.
    now rewrite (get_runs_by_branch_run server repo pages statuses events Hs).
  - intros r. unfold result. rewrite filter_In. unfold selects.
    rewrite andb_true_r, String.eqb_eq. reflexivity.
  - apply Forall_forall. intros c Hc. apply (listing_not_pull repo).
    unfold listing_calls in Hc. apply in_flat_map in Hc as (e & _ & Hc).
    apply in_map_iff in Hc as (s & <- & _). now exists e, s.
Qed.

Lemma isdigit_with_colon (u b : string) :
  isdigit (u ++ String ":" b) = false.
Proof.
  assert (H : forallb is_digit (list_ascii_of_string (u ++ String ":" b)) = false).
  { induction u as [|c u IH]; [reflexivity|].
    cbn [String.append list_ascii_of_string forallb]. rewrite IH.
    apply andb_false_r. }
  unfold isdigit. destruct (u ++ String ":" b)%string; [reflexivity | exact H].
Qed.

(** A specifier [login:branch] with one colon: the login reaches the
    query as the actor, and the whole specifier as the branch. *)
Lemma select_runs_login_branch (server : list Call -> Call -> dict)
    (repo : string) (event statuses : list string) (u b : string) (w : World) :
  contains ":" u = false -> contains ":" b = false ->
  select_runs server (u ++ String ":" b) repo event statuses w
  = get_runs_by_branch server repo (JStr (u ++ String ":" b)) (JStr u)
      statuses event
      (prints w [target_line "branch" [Lit (u ++ String ":" b)]]).
Proof.
  intros Hu Hb. rewrite select_runs_branch by apply isdigit_with_colon.
  now rewrite (split_user_branch_one u b Hu Hb).
Qed.

(** C2, on the script.  For [alice:my-branch] the split does yield the
    login [alice] and the branch [my-branch], but the query is called with
    the whole argument as the branch.  Alice's queued run of [my-branch]
    is fetched and is not selected: the command finds no run and cancels
    nothing. *)
Theorem login_branch_reaches_the_query_unsplit :
  split_user_branch "alice:my-branch" = inr (JStr "alice", "my-branch")
  /\ (forall (server : list Call -> Call -> dict) (repo : string)
             (event statuses : list string) (w : World),
        select_runs server "alice:my-branch" repo event statuses w
        = get_runs_by_branch server repo (JStr "alice:my-branch") (JStr "alice")
            statuses event
            (prints w [target_line "branch" [Lit "alice:my-branch"]]))
  /\ fetched my_branch_pages ["queued"] ["pull_request"; "push"] = [run7]
  /\ selects "my-branch" (Some "alice") run7 = true
  /\ cancel_github_workflows (Some "token")
       (github my_branch_pages no_pull accepts) same_text
       "alice:my-branch" superset ["pull_request"; "push"] false true start
     = (inr tt,
        mkWorld
          [list_call superset "pull_request" "queued";
           list_call superset "push" "queued"]
          [target_line "branch" [Lit "alice:my-branch"];
           no_runs_line ["queued"]]).
Proof.
  split; [reflexivity|]. split; [|repeat split].
  intros server repo event statuses w.
  exact (select_runs_login_branch server repo event statuses
           "alice" "my-branch" w eq_refl eq_refl).
Qed.

(** C4, on the script.  [split] is called with a bound of two splits, so
    a specifier with two colons yields three parts, and binding them to
    the two names [user] and [branch] raises a ValueError, which ends the
    command: [alice:feature:x] is not resolved to [alice] and
    [feature:x]. *)
Theorem second_colon_breaks_the_split :
  split ":" 2 "alice:feature:x" = ["alice"; "feature"; "x"]
  /\ split_user_branch "alice:feature:x" = inl ValueError
  /\ forall (server : list Call -> Call -> dict)
            (local_time : string -> option string) (repo : string)
            (event : list string) (keep_last keep_running : bool) (w : World),
       cancel_github_workflows (Some "token") server local_time
         "alice:feature:x" repo event keep_last keep_running w
       = (inl ValueError,
          prints w [target_line "branch" [Lit "alice:feature:x"]]).
Proof.
  split; [reflexivity|]. split; [reflexivity|].
  intros server local_time repo event keep_last keep_running w.
  rewrite cancel_github_workflows_run by reflexivity.
  unfold bind. rewrite select_runs_branch by reflexivity. reflexivity.
Qed.

(** ** The theorems at work *)


(** Section 8: three runs of [feature-x] created at t1 < t2 < t3, the
    last two on commit [abc123], the first on [def456]; with [keep_last]
    only the run of [def456] is submitted. *)
Lemma keep_last_spares_the_latest_commit_witness :
  [run42; run43; run41] <> []
  /\ fst (cancel_selected (github feature_pages no_pull accepts) same_text
            superset ["queued"] true (map run_json [run42; run43; run41]) start)
     = inr tt
  /\ calls (snd (cancel_selected (github feature_pages no_pull accepts)
                   same_text superset ["queued"] true
                   (map run_json [run42; run43; run41]) start))
     = [cancel_call superset run41].
Proof.
  assert (Hne : [run42; run43; run41] <> []) by discriminate.
  assert (Hp : Parses same_text [run42; run43; run41])
    by (intros r _; discriminate).
  split; [exact Hne|].
  destruct (keep_last_spares_the_latest_commit
              (github feature_pages no_pull accepts) same_text superset
              ["queued"] true [run42; run43; run41] start Hne Hp) as [E _].
  rewrite E. split; reflexivity.
Defined.

(** Section 8: the cancellation of run 42 is answered with
    [{message: "Not Found"}]; run 43 is attempted all the same, and run 42
    is reported as failed with that message. *)
Lemma failed_cancellation_does_not_stop_the_batch_witness :
  cancel_loop (github feature_pages no_pull refuses42) same_text superset JNull
    (map run_json [run42; run43]) start
  = (inr tt,
     mkWorld [cancel_call superset run42; cancel_call superset run43]
       [commit_summary same_text (commit_of "abc123");
        [Lit "[Cancled] "; Fmt (JStr "lint"); Lit " [Error: ";
         Lit "POST"; Lit " "; Lit "/repos/"; Lit superset;
         Lit "/actions/runs/"; Fmt (JInt 42); Lit "/cancel";
         Lit " >> "; Fmt (JStr "Not Found"); Lit " <<"; Lit "]"];
        [Lit "[Cancled] "; Fmt (JStr "tests")]]).
Proof.
  apply (failed_cancellation_does_not_stop_the_batch
           (github feature_pages no_pull refuses42) same_text superset
           [run42; run43] JNull start).
  intros r _. discriminate.
Defined.

Lemma nothing_to_cancel_is_success_witness :
  (exists line,
     cancel_github_workflows (Some "token")
       (github feature_pages no_pull accepts) same_text "release" superset
       ["pull_request"; "push"] true true start
     = (inr tt,
        prints (mkWorld [list_call superset "pull_request" "queued";
                         list_call superset "push" "queued"]
                  [target_line "branch" [Lit "release"]]) [line])
     /\ filter is_cancel
          (calls (prints (mkWorld [list_call superset "pull_request" "queued";
                                   list_call superset "push" "queued"]
                            [target_line "branch" [Lit "release"]]) [line]))
        = filter is_cancel (calls start))
  /\ (exists line,
        cancel_github_workflows (Some "token")
          (github my_branch_pages no_pull accepts) same_text "my-branch"
          superset ["pull_request"; "push"] true true start
        = (inr tt,
           prints (mkWorld [list_call superset "pull_request" "queued";
                            list_call superset "push" "queued"]
                     [target_line "branch" [Lit "my-branch"]]) [line])
        /\ filter is_cancel
             (calls (prints (mkWorld [list_call superset "pull_request" "queued";
                                      list_call superset "push" "queued"]
                               [target_line "branch" [Lit "my-branch"]]) [line]))
           = filter is_cancel (calls start)).
Proof.
  split.
  - apply (nothing_to_cancel_is_success (Some "token")
             (github feature_pages no_pull accepts) same_text "release"
             superset ["pull_request"; "push"] true true [] start).
    + reflexivity.
    + reflexivity.
    + left. reflexivity.
  - apply (nothing_to_cancel_is_success (Some "token")
             (github my_branch_pages no_pull accepts) same_text "my-branch"
             superset ["pull_request"; "push"] true true [run7] start).
    + reflexivity.
    + reflexivity.
    + right. split; [reflexivity|].
      intros r [<- | []]. reflexivity.
Defined.

(** C3, as the claim has it.  GitHub reports run 42 for the event
    [pull_request] and for the event [push]: its id is fetched twice, and
    the command requests its cancellation twice. *)
Lemma double_reported_run_is_cancelled_twice :
  map run_id (fetched double_pages ["queued"] ["pull_request"; "push"])
  = [42%Z; 42%Z]
  /\ filter is_cancel
       (calls (snd (cancel_github_workflows (Some "token")
                      (github double_pages no_pull accepts) same_text
                      "feature-x" superset ["pull_request"; "push"]
                      false true start)))
     = [cancel_call superset run42; cancel_call superset run42]
  /\ ~ NoDup
         (filter is_cancel
            (calls (snd (cancel_github_workflows (Some "token")
                           (github double_pages no_pull accepts) same_text
                           "feature-x" superset ["pull_request"; "push"]
                           false true start)))).
Proof.
  split; [reflexivity|]. split; [reflexivity|].
  intros H. inversion H as [|c l Hin _]; subst.
  apply Hin. now left.
Qed.

Lemma distinct_run_ids_are_cancelled_once_witness :
  NoDup (map run_id (fetched feature_pages ["queued"] ["pull_request"; "push"]))
  /\ NoDup
       (map (cancel_call superset)
          (to_cancel false
             (filter (selects "feature-x" None)
                (fetched feature_pages ["queued"] ["pull_request"; "push"])))).
Proof.
  assert (Hnd : NoDup (map run_id
                         (fetched feature_pages ["queued"]
                            ["pull_request"; "push"]))).
  { repeat constructor; cbn; intuition discriminate. }
  split; [exact Hnd|].
  apply (distinct_run_ids_are_cancelled_once
           (github feature_pages no_pull accepts) same_text superset
           feature_pages ["queued"] ["pull_request"; "push"]
           "feature-x" None false start).
  - intros history event status _ _. reflexivity.
  - intros r _. discriminate.
  - exact Hnd.
Defined.


Lemma empty_input_is_a_branch_witness :
  select_runs (github nightly_pages no_pull accepts) "" superset
    ["pull_request"; "push"] ["queued"] start
  = (inr (map run_json [run9]),
     mkWorld [list_call superset "pull_request" "queued";
              list_call superset "push" "queued"]
       [target_line "branch" [Lit ""]]).
Proof.
  apply (empty_input_is_a_branch (github nightly_pages no_pull accepts)
           superset nightly_pages ["queued"] ["pull_request"; "push"] start).
  intros history event status _ _. reflexivity.
Defined.

(** * Further properties of the script *)

(** ** What the command can request, whatever GitHub answers *)

Ltac emits_more :=
  repeat match goal with
    | |- Emits _ (ret _) => apply Emits_ret
    | |- Emits _ (raise _) => apply Emits_raise
    | |- Emits _ (lift _) => apply Emits_lift
    | |- Emits _ (print _) => apply Emits_print
    | |- Emits _ (bind _ _) => apply Emits_bind; [|intros ?]
    | |- Emits _ (filterM _ _) => apply Emits_filterM; intros ?
    | |- Emits _ (let _ := _ in _) => cbv zeta
    end.

Lemma Emits_try_except {A : Type} (P : Call -> Prop) (body : M A)
    (handler : text -> M A) :
  Emits P body -> (forall message, Emits P (handler message)) ->
  Emits P (try_except body handler).
Proof.
  intros Hb Hh w. unfold try_except.
  destruct (Hb w) as (cs & Hcs & HP).
  destruct (body w) as [[e|a] w'] eqn:E; cbn [snd] in *.
  - destruct e as [message| | | |]; try (now exists cs).
    destruct (Hh message w') as (cs' & Hcs' & HP').
    exists (cs ++ cs'). rewrite Hcs', Hcs, app_assoc. split; [reflexivity|].
    apply Forall_app. now split.
  - now exists cs.
Qed.

Lemma Emits_for_yield_In {A B : Type} (P : Call -> Prop)
    (body : A -> M (list B)) (l : list A) :
  (forall x, In x l -> Emits P (body x)) -> Emits P (for_yield l body).
Proof.
  induction l as [|x l IH]; intros Hb; cbn [for_yield].
  - apply Emits_ret.
  - apply Emits_bind; [apply Hb; now left|]. intros ys.
    apply Emits_bind; [|intros rest; apply Emits_ret].
    apply IH. intros y Hy. apply Hb. now right.
Qed.

Lemma Emits_print_commit (P : Call -> Prop)
    (local_time : string -> option string) (commit : json) :
  Emits P (print_commit local_time commit).
Proof. unfold print_commit. emits_more. Qed.

Lemma Emits_cancel_entry (server : list Call -> Call -> dict)
    (local_time : string -> option string) (repo : string)
    (last_sha entry : json) :
  Emits (cancel_request repo)
    (cancel_entry server local_time repo last_sha entry).
Proof.
  unfold cancel_entry. emits_more.
  - destruct (negb (py_eq _ last_sha)); emits_more. apply Emits_print_commit.
  - apply Emits_try_except; [|intros message]; emits_more.
    unfold cancel_run. apply Emits_request. now eexists.
Qed.

Lemma Emits_cancel_loop (server : list Call -> Call -> dict)
    (local_time : string -> option string) (repo : string)
    (runs : list json) :
  forall last_sha,
    Emits (cancel_request repo) (cancel_loop server local_time repo last_sha runs).
Proof.
  induction runs as [|entry runs IH]; intros last_sha; cbn [cancel_loop].
  - apply Emits_ret.
  - apply Emits_bind; [apply Emits_cancel_entry | intros s; apply IH].
Qed.

Lemma Emits_other_commit (P : Call -> Prop) (last_sha x : json) :
  Emits P (other_commit last_sha x).
Proof. unfold other_commit. emits_more. Qed.

(** Lines 133-160 request cancellations only. *)
Lemma Emits_cancel_selected (server : list Call -> Call -> dict)
    (local_time : string -> option string) (repo : string)
    (statuses : list string) (keep_last : bool) (runs : list json) :
  Emits (cancel_request repo)
    (cancel_selected server local_time repo statuses keep_last runs).
Proof.
  unfold cancel_selected. emits_more.
  match goal with |- Emits _ (match ?l with _ => _ end) => destruct l end;
    emits_more.
  - destruct keep_last; emits_more. apply Emits_other_commit.
  - match goal with |- Emits _ (if keep_last then _ else _) =>
      destruct keep_last end.
    + match goal with |- Emits _ (match ?l with _ => _ end) => destruct l end;
        emits_more; apply Emits_cancel_loop.
    + emits_more. apply Emits_cancel_loop.
Qed.

(** The run query lists the events and statuses it was given, nothing
    else. *)
Lemma Emits_get_runs_by_branch_of (server : list Call -> Call -> dict)
    (repo branch_or_pull : string) (branch user : json)
    (statuses events : list string) :
  Emits (query_request repo branch_or_pull events statuses)
    (get_runs_by_branch server repo branch user statuses events).
Proof.
  unfold get_runs_by_branch.
  apply Emits_for_yield_In. intros event He.
  apply Emits_for_yield_In. intros status Hs.
  emits_more.
  - unfold list_runs. apply Emits_request. right. now exists event, status.
  - apply Emits_run_matches.
Qed.

Lemma Emits_select_runs_of (server : list Call -> Call -> dict)
    (branch_or_pull repo : string) (event statuses : list string) :
  Emits (query_request repo branch_or_pull event statuses)
    (select_runs server branch_or_pull repo event statuses).
Proof.
  unfold select_runs. apply Emits_bind.
  - destruct (isdigit branch_or_pull); emits_more.
    unfold get_pull_request. apply Emits_request. now left.
  - intros [[pr target_type] title]. emits_more.
    destruct (truthy_dict pr).
    + destruct pr as [pr|]; emits_more.
      apply Emits_get_runs_by_branch_of.
    + emits_more.
      match goal with x : (_ * _)%type |- _ => destruct x as [user branch] end.
      apply Emits_get_runs_by_branch_of.
Qed.

(** X1.  Whatever GitHub answers and whatever JSON it sends, one run of the
    command requests first lookups and listings, then cancellations, and
    nothing else: the listings are for the events given and for the
    statuses of line 102, the lookup is for the argument, and no listing
    or lookup follows a cancellation.  When lines 103-131 raise, no
    cancellation is requested at all. *)
Theorem command_queries_then_cancels :
  forall (github_token : option string) (server : list Call -> Call -> dict)
         (local_time : string -> option string)
         (branch_or_pull repo : string) (event : list string)
         (keep_last keep_running : bool) (w : World),
  exists queries cancellations,
    calls (snd (cancel_github_workflows github_token server local_time
                  branch_or_pull repo event keep_last keep_running w))
    = calls w ++ queries ++ cancellations
    /\ Forall (query_request repo branch_or_pull event
                 (statuses_of keep_running)) queries
    /\ Forall (cancel_request repo) cancellations
    /\ (forall e,
          fst (select_runs server branch_or_pull repo event
                 (statuses_of keep_running) w) = inl e ->
          cancellations = []).
Proof.
  intros github_token server local_time branch_or_pull repo event keep_last
    keep_running w.
  unfold cancel_github_workflows. fold (statuses_of keep_running).
  destruct (truthy_str github_token); cbn [negb].
  - unfold bind.
    destruct (Emits_select_runs_of server branch_or_pull repo event
                (statuses_of keep_running) w) as (qs & Hqs & HQ).
    destruct (select_runs server branch_or_pull repo event
                (statuses_of keep_running) w) as [[e|runs] w1] eqn:E;
      cbn [snd fst] in *.
    + exists qs, []. rewrite app_nil_r.
      split; [assumption|]. split; [assumption|]. split; [constructor|].
      intros e' _. reflexivity.
    + destruct (Emits_cancel_selected server local_time repo
                  (statuses_of keep_running) keep_last runs w1)
        as (cs & Hcs & HC).
      exists qs, cs. rewrite Hcs, Hqs, app_assoc.
      split; [reflexivity|]. split; [assumption|]. split; [assumption|].
      intros e [=].
  - exists [], []. cbn. rewrite app_nil_r.
    split; [reflexivity|]. split; [constructor|]. split; [constructor|].
    intros e _. reflexivity.
Qed.

(** ** What the command can raise, whatever GitHub answers *)

Lemma Raises_ret {A : Type} (Q : exn -> Prop) (a : A) : Raises Q (ret a).
Proof. intros w e [=]. Qed.

Lemma Raises_print (Q : exn -> Prop) (line : text) : Raises Q (print line).
Proof. intros w e [=]. Qed.

Lemma Raises_raise {A : Type} (Q : exn -> Prop) (e : exn) :
  Q e -> Raises Q (raise e : M A).
Proof. intros He w e' [= <-]. exact He. Qed.

Lemma Raises_lift {A : Type} (Q : exn -> Prop) (r : exn + A) :
  (forall e, r = inl e -> Q e) -> Raises Q (lift r).
Proof. intros Hr w e H. apply Hr. exact H. Qed.

Lemma Raises_bind {A B : Type} (Q : exn -> Prop) (m : M A) (k : A -> M B) :
  Raises Q m -> (forall a, Raises Q (k a)) -> Raises Q (bind m k).
Proof.
  intros Hm Hk w e. unfold bind.
  destruct (m w) as [[e'|a] w'] eqn:E; cbn [fst].
  - intros [= <-]. apply (Hm w). now rewrite E.
  - apply Hk.
Qed.

Lemma Raises_filterM {A : Type} (Q : exn -> Prop) (cond : A -> M bool)
    (l : list A) :
  (forall x, Raises Q (cond x)) -> Raises Q (filterM cond l).
Proof.
  intros Hc. induction l as [|x l IH]; cbn [filterM].
  - apply Raises_ret.
  - apply Raises_bind; [apply Hc|]. intros b.
    apply Raises_bind; [apply IH|]. intros rest. apply Raises_ret.
Qed.

Lemma Raises_for_yield {A B : Type} (Q : exn -> Prop) (body : A -> M (list B))
    (l : list A) :
  (forall x, Raises Q (body x)) -> Raises Q (for_yield l body).
Proof.
  intros Hb. induction l as [|x l IH]; cbn [for_yield].
  - apply Raises_ret.
  - apply Raises_bind; [apply Hb|]. intros ys.
    apply Raises_bind; [apply IH|]. intros rest. apply Raises_ret.
Qed.

Lemma Raises_weaken {A : Type} (Q Q' : exn -> Prop) (m : M A) :
  (forall e, Q e -> Q' e) -> Raises Q m -> Raises Q' m.
Proof. intros HQ Hm w e H. apply HQ, (Hm w e H). Qed.

(** [request] raises nothing but the failure of its own request. *)
Lemma Raises_request (server : list Call -> Call -> dict) (m : method)
    (endpoint : text) (params : option (list (string * string))) :
  Raises (api_failure m) (request server m endpoint params).
Proof.
  intros w e. rewrite request_run. cbn [fst].
  destruct (dict_get "message" _) as [message|]; [|discriminate].
  intros [= <-]. now exists endpoint, message.
Qed.

(** [try ... except ClickException] lets no ClickException of its body
    through. *)
Lemma Raises_try_except {A : Type} (body : M A) (handler : text -> M A) :
  (forall message, Raises not_click (handler message)) ->
  Raises not_click (try_except body handler).
Proof.
  intros Hh w e. unfold try_except.
  destruct (body w) as [[e'|a] w'] eqn:E.
  - destruct e' as [message| | | |]; cbn [fst];
      try (intros [= <-] message' [=]).
    apply Hh.
  - intros [=].
Qed.

Lemma getitem_not_click (v : json) (k : string) (e : exn) :
  getitem v k = inl e -> not_click e.
Proof.
  unfold getitem. destruct v; try (intros [= <-] message [=]).
  destruct (dict_get k d); intros [= <-] message [=].
Qed.

Lemma py_iter_not_click (v : json) (e : exn) :
  py_iter v = inl e -> not_click e.
Proof. destruct v; cbn; intros [= <-] message [=]. Qed.

(** Python's [<] raises nothing but TypeError. *)
Lemma py_lt_error : forall (a b : json) (e : exn),
  py_lt a b = inl e -> e = TypeError.
Proof.
  fix IH 1. intros a b e.
  destruct a as [| x | n | s | l | d]; destruct b as [| y | m | t | l' | d'];
    cbn; try (intros [= <-]; reflexivity); try discriminate.
  revert l'. induction l as [|u l IHl]; intros [|v l'] H;
    try discriminate.
  destruct (py_eq u v); [apply (IHl l' H) | apply (IH u v e H)].
Qed.

Lemma insert_by_key_not_click (kx x : json) (l : list (json * json)) (e : exn) :
  insert_by_key kx x l = inl e -> not_click e.
Proof.
  induction l as [|[ky y] l IH]; cbn; [discriminate|].
  destruct (py_lt ky kx) as [e'|[|]] eqn:E.
  - intros [= <-]. apply py_lt_error in E. subst e'. intros message [=].
  - destruct (insert_by_key kx x l) as [e'|r]; [|discriminate].
    intros [= <-]. now apply IH.
  - discriminate.
Qed.

Lemma sort_keyed_not_click (l : list (json * json)) (e : exn) :
  sort_keyed l = inl e -> not_click e.
Proof.
  revert e. induction l as [|[kx x] l IH]; intros e; cbn; [discriminate|].
  destruct (sort_keyed l) as [e'|r].
  - intros [= <-]. now apply IH.
  - apply insert_by_key_not_click.
Qed.

Lemma keyed_not_click (key : string) (l : list json) (e : exn) :
  keyed key l = inl e -> not_click e.
Proof.
  revert e. induction l as [|x l IH]; intros e; cbn; [discriminate|].
  destruct (getitem x key) as [e'|kx] eqn:E.
  - intros [= <-]. now apply getitem_not_click in E.
  - destruct (keyed key l) as [e'|r]; [|discriminate].
    intros [= <-]. now apply IH.
Qed.

Lemma sorted_not_click (key : string) (l : list json) (e : exn) :
  sorted key l = inl e -> not_click e.
Proof.
  unfold sorted. destruct (keyed key l) as [e'|kl] eqn:E.
  - intros [= <-]. now apply keyed_not_click in E.
  - destruct (sort_keyed kl) as [e'|r] eqn:E'; [|discriminate].
    intros [= <-]. now apply sort_keyed_not_click in E'.
Qed.

Ltac raises :=
  repeat match goal with
    | |- Raises _ (ret _) => apply Raises_ret
    | |- Raises _ (print _) => apply Raises_print
    | |- Raises _ (bind _ _) => apply Raises_bind; [|intros ?]
    | |- Raises _ (filterM _ _) => apply Raises_filterM; intros ?
    | |- Raises _ (for_yield _ _) => apply Raises_for_yield; intros ?
    | |- Raises _ (let _ := _ in _) => cbv zeta
    | |- Raises not_click (lift (getitem _ _)) =>
        apply Raises_lift; intros ?; apply getitem_not_click
    | |- Raises not_click (lift (py_iter _)) =>
        apply Raises_lift; intros ?; apply py_iter_not_click
    | |- Raises not_click (lift (sorted _ _)) =>
        apply Raises_lift; intros ?; apply sorted_not_click
    end.

Lemma Raises_print_commit (local_time : string -> option string)
    (commit : json) :
  Raises not_click (print_commit local_time commit).
Proof.
  unfold print_commit. raises.
  - apply Raises_lift. intros e. unfold as_str.
    match goal with |- match ?v with _ => _ end = _ -> _ => destruct v end;
      intros [= <-] message' [=].
  - apply Raises_lift. intros e.
    match goal with |- match ?v with _ => _ end = _ -> _ => destruct v end;
      try (intros [= <-] message' [=]).
    match goal with |- match ?v with _ => _ end = _ -> _ => destruct v end;
      intros [= <-] message' [=].
Qed.

Lemma Raises_cancel_entry (server : list Call -> Call -> dict)
    (local_time : string -> option string) (repo : string)
    (last_sha entry : json) :
  Raises not_click (cancel_entry server local_time repo last_sha entry).
Proof.
  unfold cancel_entry. raises.
  - match goal with |- Raises _ (if ?b then _ else _) => destruct b end;
      raises. apply Raises_print_commit.
  - apply Raises_try_except. intros message. raises.
Qed.

Lemma Raises_cancel_loop (server : list Call -> Call -> dict)
    (local_time : string -> option string) (repo : string)
    (runs : list json) :
  forall last_sha,
    Raises not_click (cancel_loop server local_time repo last_sha runs).
Proof.
  induction runs as [|entry runs IH]; intros last_sha; cbn [cancel_loop].
  - apply Raises_ret.
  - apply Raises_bind; [apply Raises_cancel_entry | intros s; apply IH].
Qed.

(** Lines 133-160 raise no ClickException: a cancellation that GitHub
    refuses never ends the command. *)
Lemma Raises_cancel_selected (server : list Call -> Call -> dict)
    (local_time : string -> option string) (repo : string)
    (statuses : list string) (keep_last : bool) (runs : list json) :
  Raises not_click
    (cancel_selected server local_time repo statuses keep_last runs).
Proof.
  unfold cancel_selected. raises.
  match goal with |- Raises _ (match ?l with _ => _ end) => destruct l end;
    raises.
  - destruct keep_last; raises. unfold other_commit. raises.
  - match goal with |- Raises _ (if keep_last then _ else _) =>
      destruct keep_last end.
    + match goal with |- Raises _ (match ?l with _ => _ end) => destruct l end;
        raises; apply Raises_cancel_loop.
    + raises. apply Raises_cancel_loop.
Qed.

Ltac raises_query :=
  repeat match goal with
    | |- Raises _ (ret _) => apply Raises_ret
    | |- Raises _ (print _) => apply Raises_print
    | |- Raises _ (bind _ _) => apply Raises_bind; [|intros ?]
    | |- Raises _ (filterM _ _) => apply Raises_filterM; intros ?
    | |- Raises _ (for_yield _ _) => apply Raises_for_yield; intros ?
    | |- Raises query_error (lift (getitem _ _)) =>
        apply Raises_lift; intros ? ?; right; eapply getitem_not_click; eassumption
    | |- Raises query_error (lift (py_iter _)) =>
        apply Raises_lift; intros ? ?; right; eapply py_iter_not_click; eassumption
    | |- Raises query_error (request _ GET _ _) =>
        eapply Raises_weaken; [|apply Raises_request]; intros ? ?; now left
    end.

Lemma Raises_get_runs_by_branch (server : list Call -> Call -> dict)
    (repo : string) (branch user : json) (statuses events : list string) :
  Raises query_error (get_runs_by_branch server repo branch user statuses events).
Proof.
  unfold get_runs_by_branch, list_runs. raises_query.
  unfold run_matches. raises_query.
  destruct (py_eq _ branch); [destruct (is_none user)|]; raises_query.
Qed.

Lemma Raises_select_runs (server : list Call -> Call -> dict)
    (branch_or_pull repo : string) (event statuses : list string) :
  Raises query_error (select_runs server branch_or_pull repo event statuses).
Proof.
  unfold select_runs. apply Raises_bind.
  - destruct (isdigit branch_or_pull); unfold get_pull_request; raises_query.
  - intros [[pr target_type] title]. raises_query.
    destruct (truthy_dict pr).
    + destruct pr as [pr|]; raises_query. apply Raises_get_runs_by_branch.
    + raises_query.
      * apply Raises_lift. intros e. unfold split_user_branch.
        destruct (contains ":" branch_or_pull); [|discriminate].
        destruct (split ":" 2 branch_or_pull) as [|? [|? [|? ?]]];
          intros [= <-]; right; intros message [=].
      * match goal with x : (_ * _)%type |- _ => destruct x as [user branch] end.
        apply Raises_get_runs_by_branch.
Qed.

(** X2.  Whatever GitHub answers and whatever JSON it sends, a
    ClickException that ends the command is the one for the missing token
    or the failure of a GET request, the lookup or a listing.  The failure
    of a cancellation never ends the command. *)
Theorem command_errors_come_from_queries :
  forall (github_token : option string) (server : list Call -> Call -> dict)
         (local_time : string -> option string)
         (branch_or_pull repo : string) (event : list string)
         (keep_last keep_running : bool) (w : World) (e : exn),
    fst (cancel_github_workflows github_token server local_time
           branch_or_pull repo event keep_last keep_running w) = inl e ->
    (forall message,
       e = ClickException message ->
       (message = token_error /\ truthy_str github_token = false)
       \/ exists endpoint answer, message = api_error GET endpoint answer)
    /\ ~ api_failure POST e.
Proof.
  intros github_token server local_time branch_or_pull repo event keep_last
    keep_running w e H.
  assert (Hcases : (e = ClickException token_error
                    /\ truthy_str github_token = false)
                   \/ query_error e).
  { unfold cancel_github_workflows in H.
    destruct (truthy_str github_token); cbn [negb] in H.
    - right. revert H. apply Raises_bind.
      + apply Raises_select_runs.
      + intros runs. eapply Raises_weaken; [|apply Raises_cancel_selected].
        intros e' He'. now right.
    - left. cbn in H. injection H as <-. now split. }
  split.
  - intros message ->.
    destruct Hcases as [[[= ->] Ht] | [(endpoint & answer & [= ->]) | Hn]].
    + left. now split.
    + right. now exists endpoint, answer.
    + now destruct (Hn message).
  - intros (endpoint & answer & ->).
    destruct Hcases as [[[= Hm] _] | [(endpoint' & answer' & [= Hm]) | Hn]].
    now apply (Hn (api_error POST endpoint answer)).
Qed.

(** ** The requests of the run query *)

Lemma bind_raises {A B : Type} {m : M A} (k : A -> M B) {w w' : World}
    {e : exn} :
  m w = (inl e, w') -> bind m k w = (inl e, w').
Proof. intros H. unfold bind. now rewrite H. Qed.

Lemma Silent_ret {A : Type} (a : A) : Silent (ret a).
Proof. intros w. reflexivity. Qed.

Lemma Silent_lift {A : Type} (r : exn + A) : Silent (lift r).
Proof. intros w. reflexivity. Qed.

Lemma Silent_bind {A B : Type} (m : M A) (k : A -> M B) :
  Silent m -> (forall a, Silent (k a)) -> Silent (bind m k).
Proof.
  intros Hm Hk w. unfold bind. specialize (Hm w).
  destruct (m w) as [[e|a] w']; cbn [snd] in *; subst w'; [reflexivity|].
  apply Hk.
Qed.

Lemma Silent_filterM {A : Type} (cond : A -> M bool) (l : list A) :
  (forall x, Silent (cond x)) -> Silent (filterM cond l).
Proof.
  intros Hc. induction l as [|x l IH]; cbn [filterM].
  - apply Silent_ret.
  - apply Silent_bind; [apply Hc|]. intros b.
    apply Silent_bind; [apply IH|]. intros rest. apply Silent_ret.
Qed.

Lemma Silent_run_matches (branch user item : json) :
  Silent (run_matches branch user item).
Proof.
  unfold run_matches. apply Silent_bind; [apply Silent_lift|]. intros hb.
  destruct (py_eq hb branch); [destruct (is_none user)|];
    repeat first [apply Silent_ret | apply Silent_lift
                 | apply Silent_bind; [|intros ?]].
Qed.

(** A loop whose body requests a beginning of [tr x], and all of it when
    it returns, requests a beginning of all the [tr x], and all of them
    when it returns. *)
Lemma for_yield_requests {A B : Type} (body : A -> M (list B))
    (tr : A -> list Call) (l : list A) :
  (forall x w, exists cs rest,
      snd (body x w) = adds_calls w cs
      /\ tr x = cs ++ rest
      /\ (forall v, fst (body x w) = inr v -> rest = [])) ->
  forall w, exists cs rest,
    snd (for_yield l body w) = adds_calls w cs
    /\ flat_map tr l = cs ++ rest
    /\ (forall v, fst (for_yield l body w) = inr v -> rest = []).
Proof.
  intros Hb. induction l as [|x l IH]; intros w.
  - exists [], []. cbn. rewrite adds_calls_nil. now repeat split.
  - cbn [for_yield flat_map].
    destruct (Hb x w) as (cs & rest & Hw & Htr & Hret).
    destruct (body x w) as [[e|ys] w1] eqn:E; cbn [snd fst] in *; subst w1.
    + rewrite (bind_raises _ E). cbn [snd fst].
      exists cs, (rest ++ flat_map tr l). rewrite Htr, <- app_assoc.
      split; [reflexivity|]. split; [reflexivity | discriminate].
    + rewrite (bind_inr _ E).
      rewrite (Hret ys eq_refl), app_nil_r in Htr.
      destruct (IH (adds_calls w cs)) as (cs' & rest' & Hw' & Htr' & Hret').
      destruct (for_yield l body (adds_calls w cs)) as [[e|zs] w2] eqn:E';
        cbn [snd fst] in *; subst w2.
      * rewrite (bind_raises _ E'). cbn [snd fst].
        exists (cs ++ cs'), rest'.
        rewrite adds_calls_app, Htr, Htr', app_assoc.
        split; [reflexivity|]. split; [reflexivity | discriminate].
      * rewrite (bind_inr _ E'). unfold ret. cbn [snd fst].
        exists (cs ++ cs'), rest'.
        rewrite adds_calls_app, Htr, Htr', app_assoc.
        split; [reflexivity|]. split; [reflexivity|].
        intros v _. now apply (Hret' zs).
Qed.

(** X3.  Whatever GitHub answers, the run query requests the listings of
    the (event, status) pairs in event-major, status-minor order and stops
    at the first one that fails: its requests are a beginning of
    [listing_calls], all of it when the query returns; it requests nothing
    else and prints nothing. *)
Theorem get_runs_by_branch_requests :
  forall (server : list Call -> Call -> dict) (repo : string)
         (branch user : json) (statuses events : list string) (w : World),
  exists made skipped,
    snd (get_runs_by_branch server repo branch user statuses events w)
    = adds_calls w made
    /\ listing_calls repo statuses events = made ++ skipped
    /\ (forall runs,
          fst (get_runs_by_branch server repo branch user statuses events w)
          = inr runs ->
          skipped = []).
Proof.
  intros server repo branch user statuses events w.
  unfold get_runs_by_branch, listing_calls.
  apply for_yield_requests. clear w. intros event w.
  rewrite <- flat_map_single.
  apply for_yield_requests. clear w. intros status w.
  exists [list_call repo event status], [].
  split; [|split; [reflexivity | reflexivity]].
  unfold list_runs, bind at 1. rewrite request_run.
  fold (list_call repo event status).
  destruct (dict_get "message" _); [reflexivity|].
  apply (Silent_bind _ _ (Silent_lift _)). intros workflow_runs.
  apply (Silent_bind _ _ (Silent_lift _)). intros items.
  apply Silent_filterM, Silent_run_matches.
Qed.

(** ** The command from end to end *)

(** X4.  When the argument is a number and GitHub answers the lookup of
    that pull request with a [message], the command ends with the
    ClickException of that request: the lookup is the only request made,
    no listing and no cancellation follows, and nothing is printed. *)
Theorem failed_lookup_ends_the_command :
  forall (github_token : option string) (server : list Call -> Call -> dict)
         (local_time : string -> option string)
         (branch_or_pull repo : string) (event : list string)
         (keep_last keep_running : bool) (w : World) (message : json),
    truthy_str github_token = true ->
    isdigit branch_or_pull = true ->
    dict_get "message" (server (calls w) (pull_call repo branch_or_pull))
    = Some message ->
    cancel_github_workflows github_token server local_time branch_or_pull
      repo event keep_last keep_running w
    = (inl (ClickException
              (api_error GET
                 [Lit "/repos/"; Lit repo; Lit "/pulls/"; Lit branch_or_pull]
                 message)),
       adds_calls w [pull_call repo branch_or_pull]).
Proof.
  intros github_token server local_time branch_or_pull repo event keep_last
    keep_running w message Ht Hd Hm.
  rewrite (cancel_github_workflows_run _ _ _ _ _ _ _ _ _ Ht).
  apply bind_raises. unfold select_runs. rewrite Hd.
  apply bind_raises. unfold get_pull_request.
  apply bind_raises. rewrite request_run.
  fold (pull_call repo branch_or_pull). now rewrite Hm.
Qed.

(** X5.  For a plain branch name (no number, no colon) and a GitHub that
    answers the listings with runs, the command returns normally; its
    requests are the listings followed by the cancellations of the runs of
    that branch, whoever owns them, in ascending order of creation, less
    the runs of the latest commit when [keep_last] is set; and it prints
    the target line followed by the report of the driver. *)
Theorem branch_name_end_to_end :
  forall (github_token : option string) (server : list Call -> Call -> dict)
         (local_time : string -> option string) (repo : string)
         (pages : string -> string -> list WorkflowRun)
         (event : list string) (keep_last keep_running : bool)
         (branch : string) (w : World),
    truthy_str github_token = true ->
    isdigit branch = false ->
    contains ":" branch = false ->
    Serves server repo pages (statuses_of keep_running) event ->
    Parses local_time (fetched pages (statuses_of keep_running) event) ->
    let statuses := statuses_of keep_running in
    let selection := filter (selects branch None) (fetched pages statuses event) in
    cancel_github_workflows github_token server local_time branch repo event
      keep_last keep_running w
    = (inr tt,
       mkWorld
         (calls w ++ listing_calls repo statuses event
          ++ map (cancel_call repo) (to_cancel keep_last selection))
         (stdout w
          ++ target_line "branch" [Lit branch]
          :: selected_report server local_time repo statuses keep_last
               (calls w ++ listing_calls repo statuses event) selection)).
Proof.
  intros github_token server local_time repo pages event keep_last
    keep_running branch w Ht Hd Hc Hs Hp statuses selection.
  rewrite (cancel_github_workflows_run _ _ _ _ _ _ _ _ _ Ht).
  fold statuses.
  assert (Hsel :
    select_runs server branch repo event statuses w
    = (inr (map run_json selection),
       adds_calls (prints w [target_line "branch" [Lit branch]])
         (listing_calls repo statuses event))).
  { rewrite select_runs_branch by assumption.
    rewrite (split_user_branch_none branch Hc).
    change JNull with (opt_json None).
    apply (get_runs_by_branch_run server repo pages statuses event Hs). }
  rewrite (bind_inr _ Hsel).
  rewrite cancel_selected_run.
  - unfold adds_calls, prints. cbn [calls stdout].
    rewrite <- !app_assoc. reflexivity.
  - intros r Hr. apply Hp. apply to_cancel_incl in Hr.
    now apply filter_In in Hr.
Qed.

(** X6.  For a pull-request number and a GitHub that knows that pull
    request and answers the listings with runs, the command returns
    normally; its requests are the lookup, the listings and the
    cancellations of the runs whose head branch is the head ref of the
    pull request and whose owner is its author, in ascending order of
    creation, less the runs of the latest commit when [keep_last] is
    set. *)
Theorem pull_request_end_to_end :
  forall (github_token : option string) (server : list Call -> Call -> dict)
         (local_time : string -> option string) (repo : string)
         (pages : string -> string -> list WorkflowRun)
         (event : list string) (keep_last keep_running : bool)
         (pull_number : string) (p : PullRequest) (w : World),
    truthy_str github_token = true ->
    decimal_number pull_number ->
    server (calls w) (pull_call repo pull_number) = pull_body p ->
    Serves server repo pages (statuses_of keep_running) event ->
    Parses local_time (fetched pages (statuses_of keep_running) event) ->
    let statuses := statuses_of keep_running in
    let selection :=
      filter (selects (pr_head_ref p) (Some (pr_user_login p)))
        (fetched pages statuses event) in
    let queries := pull_call repo pull_number :: listing_calls repo statuses event in
    cancel_github_workflows github_token server local_time pull_number repo
      event keep_last keep_running w
    = (inr tt,
       mkWorld
         (calls w ++ queries
          ++ map (cancel_call repo) (to_cancel keep_last selection))
         (stdout w
          ++ target_line "pull request" (pull_title p)
          :: selected_report server local_time repo statuses keep_last
               (calls w ++ queries) selection)).
Proof.
  intros github_token server local_time repo pages event keep_last
    keep_running pull_number p w Ht Hd Hpull Hs Hp statuses selection queries.
  rewrite (cancel_github_workflows_run _ _ _ _ _ _ _ _ _ Ht).
  fold statuses.
  assert (Hsel :
    select_runs server pull_number repo event statuses w
    = (inr (map run_json selection),
       adds_calls
         (mkWorld (calls w ++ [pull_call repo pull_number])
            (stdout w ++ [target_line "pull request" (pull_title p)]))
         (listing_calls repo statuses event))).
  { rewrite (select_runs_pull server repo event statuses pull_number p w
               (decimal_number_isdigit _ Hd) Hpull).
    change (JStr (pr_user_login p)) with (opt_json (Some (pr_user_login p))).
    apply (get_runs_by_branch_run server repo pages statuses event Hs). }
  rewrite (bind_inr _ Hsel).
  rewrite cancel_selected_run.
  - unfold adds_calls, queries. cbn [calls stdout].
    rewrite <- !app_assoc. reflexivity.
  - intros r Hr. apply Hp. apply to_cancel_incl in Hr.
    now apply filter_In in Hr.
Qed.

(** ** The report of the loop *)





(** ** Sorting *)

Lemma compare_same (s : string) : String.compare s s = Eq.
Proof.
  pose proof (String.compare_antisym s s) as H.
  destruct (String.compare s s); [reflexivity | discriminate | discriminate].
Qed.

Lemma insert_run_same_time (t : string) (x : WorkflowRun)
    (l : list WorkflowRun) :
  filter (fun r => String.eqb (created_at r) t) (insert_run x l)
  = filter (fun r => String.eqb (created_at r) t) (x :: l).
Proof.
  induction l as [|y l IH]; [reflexivity|].
  cbn [insert_run].
  destruct (String.ltb (created_at y) (created_at x)) eqn:E; [|reflexivity].
  cbn [filter] in *. rewrite IH.
  destruct (String.eqb (created_at y) t) eqn:Ey; [|reflexivity].
  destruct (String.eqb (created_at x) t) eqn:Ex; [|reflexivity].
  apply String.eqb_eq in Ey, Ex. rewrite Ey, Ex in E.
  unfold String.ltb in E. now rewrite compare_same in E.
Qed.

(** X8.  [sorted] is stable on runs: it orders them by [created_at], and
    runs created at the same time stay in the order in which they were
    fetched. *)
Theorem sorted_keeps_runs_of_one_time_in_order :
  forall (rs : list WorkflowRun),
    sorted "created_at" (map run_json rs) = inr (map run_json (sort_runs rs))
    /\ Sorted not_after (sort_runs rs)
    /\ forall t,
         filter (fun r => String.eqb (created_at r) t) (sort_runs rs)
         = filter (fun r => String.eqb (created_at r) t) rs.
Proof.
  intros rs. split; [apply sorted_run_json|]. split; [apply sort_runs_sorted|].
  intros t. induction rs as [|x rs IH]; [reflexivity|].
  cbn [sort_runs]. rewrite insert_run_same_time. cbn [filter]. now rewrite IH.
Qed.

(** ** The keep-last guard *)




(** ** The commit header *)

Lemma split_not_nil (sep : ascii) (n : nat) (s : string) : split sep n s <> [].
Proof.
  revert n. induction s as [|c s IH]; intros n; [discriminate|].
  destruct n as [|n]; [discriminate|]. cbn [split].
  destruct (Ascii.eqb c sep); [discriminate|].
  specialize (IH (S n)). destruct (split sep (S n) s); [congruence | discriminate].
Qed.

Lemma concat_head (sep : string) (c : ascii) (h : string) (t : list string) :
  String.concat sep (String c h :: t) = String c (String.concat sep (h :: t)).
Proof. destruct t; reflexivity. Qed.

(** Line 61: splitting at the line feeds and joining with four spaces and
    a line feed puts four spaces before every line feed. *)
Lemma join_split_pad (s : string) :
  forall n, (String.length s <= n)%nat ->
    join ("    " ++ nl)%string (split newline n s) = pad_breaks s.
Proof.
  unfold join. induction s as [|c s IH]; intros n Hn; [reflexivity|].
  destruct n as [|n]; [cbn in Hn; lia|].
  cbn [split pad_breaks]. cbn [String.length] in Hn.
  destruct (Ascii.eqb c newline).
  - pose proof (split_not_nil newline n s) as Hne.
    specialize (IH n ltac:(lia)).
    destruct (split newline n s) as [|h t]; [congruence|].
    rewrite <- IH. reflexivity.
  - pose proof (split_not_nil newline (S n) s) as Hne.
    specialize (IH (S n) ltac:(lia)).
    destruct (split newline (S n) s) as [|h t]; [congruence|].
    rewrite concat_head. now rewrite IH.
Qed.

Lemma pad_breaks_one_line (s : string) :
  contains newline s = false -> pad_breaks s = s.
Proof.
  induction s as [|c s IH]; [reflexivity|].
  rewrite contains_cons. intros H. apply orb_false_iff in H as [Hc Hs].
  cbn [pad_breaks]. rewrite Hc. now rewrite (IH Hs).
Qed.

(** X10.  For a commit whose timestamp dateutil can read, [print_commit]
    prints one line and requests nothing: the id, the author's name and
    address, the local date, and the message with four spaces put before
    each of its line feeds, so that a message of one line is printed as
    it is. *)
Theorem print_commit_prints_the_header :
  forall (local_time : string -> option string) (c : Commit) (date : string)
         (w : World),
    local_time (commit_timestamp c) = Some date ->
    print_commit local_time (commit_json c) w
    = (inr tt,
       prints w
         [[Lit (nl ++ "HEAD ")%string; Fmt (JStr (commit_id c));
           Lit (nl ++ "Author: ")%string; Fmt (JStr (author_name c));
           Lit " <"; Fmt (JStr (author_email c));
           Lit (">" ++ nl ++ "Date:   ")%string; Lit date;
           Lit (nl ++ nl ++ "    ")%string;
           Lit (pad_breaks (commit_message c)); Lit nl]])
    /\ (contains newline (commit_message c) = false ->
        pad_breaks (commit_message c) = commit_message c).
Proof.
  intros local_time c date w Hd. split; [|apply pad_breaks_one_line].
  rewrite print_commit_run by congruence.
  unfold commit_summary, prints, split_all.
  rewrite Hd, join_split_pad by lia. reflexivity.
Qed.

(** ** The split of the branch specifier *)

(** X11.  Whenever lines 125-128 resolve a specifier, nothing of it is
    lost: either it holds no colon and is the branch, with no login, or it
    is the login, a colon and the branch, and neither part holds a
    colon. *)
Theorem resolved_parts_rebuild_the_specifier :
  forall (s : string) (user : json) (branch : string),
    split_user_branch s = inr (user, branch) ->
    (user = JNull /\ branch = s /\ contains ":" s = false)
    \/ exists login,
         user = JStr login
         /\ s = (login ++ String ":" branch)%string
         /\ contains ":" login = false
         /\ contains ":" branch = false.
Proof.
  intros s user branch H.
  destruct (contains ":" s) eqn:Hc.
  - right.
    destruct (split_user_branch_colon s Hc) as (u & b & -> & Hu & Hs).
    rewrite Hs in H. destruct (contains ":" b) eqn:Hb; [discriminate|].
    injection H as <- <-. now exists u.
  - left. rewrite (split_user_branch_none s Hc) in H.
    injection H as <- <-. now repeat split.
Qed.

(** ** Runs that lack a field *)

Lemma keyed_lacks (key : string) (runs : list json) :
  Forall is_object runs -> Exists (lacks key) runs ->
  keyed key runs = inl (KeyError key).
Proof.
  induction runs as [|x runs IH]; intros Hobj Hex; [inversion Hex|].
  inversion Hobj as [|? ? [d ->] Hrest]; subst.
  cbn [keyed getitem].
  destruct (dict_get key d) as [v|] eqn:E; [|reflexivity].
  inversion Hex as [? ? Hl | ? ? Htail]; subst.
  - destruct Hl as (d' & Heq & Hnone). injection Heq as <-. congruence.
  - now rewrite (IH Hrest Htail).
Qed.

(** X12.  When the selected runs are JSON objects and one of them has no
    [created_at], the driver raises the KeyError of that field before it
    prints or requests anything: no run is cancelled, not even those that
    are complete. *)
Theorem run_without_created_at_stops_the_driver :
  forall (server : list Call -> Call -> dict)
         (local_time : string -> option string) (repo : string)
         (statuses : list string) (keep_last : bool)
         (runs : list json) (w : World),
    Forall is_object runs ->
    Exists (lacks "created_at") runs ->
    cancel_selected server local_time repo statuses keep_last runs w
    = (inl (KeyError "created_at"), w).
Proof.
  intros server local_time repo statuses keep_last runs w Hobj Hex.
  unfold cancel_selected, sorted.
  now rewrite (keyed_lacks "created_at" runs Hobj Hex).
Qed.

(** ** The further properties at work *)

(** Pull request 999 is unknown to GitHub, which answers [Not Found]. *)
Lemma command_errors_come_from_queries_witness :
  fst (cancel_github_workflows (Some "token")
         (github feature_pages pulls accepts) same_text "999" superset
         ["pull_request"; "push"] true true start)
  = inl (ClickException
           (api_error GET
              [Lit "/repos/"; Lit superset; Lit "/pulls/"; Lit "999"]
              (JStr "Not Found")))
  /\ ~ api_failure POST
         (ClickException
            (api_error GET
               [Lit "/repos/"; Lit superset; Lit "/pulls/"; Lit "999"]
               (JStr "Not Found"))).
Proof.
  split; [reflexivity|].
  apply (command_errors_come_from_queries (Some "token")
           (github feature_pages pulls accepts) same_text "999" superset
           ["pull_request"; "push"] true true start).
  reflexivity.
Defined.

Lemma failed_lookup_ends_the_command_witness :
  cancel_github_workflows (Some "token")
    (github feature_pages pulls accepts) same_text "999" superset
    ["pull_request"; "push"] true true start
  = (inl (ClickException
            (api_error GET
               [Lit "/repos/"; Lit superset; Lit "/pulls/"; Lit "999"]
               (JStr "Not Found"))),
     mkWorld [pull_call superset "999"] []).
Proof.
  apply (failed_lookup_ends_the_command (Some "token")
           (github feature_pages pulls accepts) same_text "999" superset
           ["pull_request"; "push"] true true start (JStr "Not Found"));
    reflexivity.
Defined.

Lemma branch_name_end_to_end_witness :
  fst (cancel_github_workflows (Some "token")
         (github feature_pages no_pull accepts) same_text "feature-x" superset
         ["pull_request"; "push"] true true start)
  = inr tt
  /\ calls (snd (cancel_github_workflows (Some "token")
                   (github feature_pages no_pull accepts) same_text
                   "feature-x" superset ["pull_request"; "push"] true true
                   start))
     = [list_call superset "pull_request" "queued";
        list_call superset "push" "queued";
        cancel_call superset run41].
Proof.
  rewrite (branch_name_end_to_end (Some "token")
             (github feature_pages no_pull accepts) same_text superset
             feature_pages ["pull_request"; "push"] true true "feature-x" start).
  - split; reflexivity.
  - reflexivity.
  - reflexivity.
  - reflexivity.
  - intros history event status _ _. reflexivity.
  - intros r _. discriminate.
Defined.

Lemma pull_request_end_to_end_witness :
  decimal_number "123"
  /\ fst (cancel_github_workflows (Some "token")
            (github my_branch_pages pulls accepts) same_text "123" superset
            ["pull_request"; "push"] false true start)
     = inr tt
  /\ calls (snd (cancel_github_workflows (Some "token")
                   (github my_branch_pages pulls accepts) same_text "123"
                   superset ["pull_request"; "push"] false true start))
     = [pull_call superset "123";
        list_call superset "pull_request" "queued";
        list_call superset "push" "queued";
        cancel_call superset run7].
Proof.
  assert (Hd : decimal_number "123").
  { split; [discriminate | repeat constructor]. }
  split; [exact Hd|].
  rewrite (pull_request_end_to_end (Some "token")
             (github my_branch_pages pulls accepts) same_text superset
             my_branch_pages ["pull_request"; "push"] false true "123"
             pull123 start).
  - split; reflexivity.
  - reflexivity.
  - exact Hd.
  - reflexivity.
  - intros history event status _ _. reflexivity.
  - intros r _. discriminate.
Defined.



Lemma print_commit_prints_the_header_witness :
  print_commit same_text (commit_json two_line_commit) start
  = (inr tt,
     prints start
       [[Lit (nl ++ "HEAD ")%string; Fmt (JStr "abc123");
         Lit (nl ++ "Author: ")%string; Fmt (JStr "Alice");
         Lit " <"; Fmt (JStr "alice@example.org");
         Lit (">" ++ nl ++ "Date:   ")%string; Lit "2020-09-01T10:00:00Z";
         Lit (nl ++ nl ++ "    ")%string;
         Lit ("Fix the build    " ++ nl ++ "and the docs")%string; Lit nl]]).
Proof.
  apply (print_commit_prints_the_header same_text two_line_commit
           "2020-09-01T10:00:00Z" start).
  reflexivity.
Defined.

Lemma resolved_parts_rebuild_the_specifier_witness :
  (JStr "alice" = JNull /\ "my-branch" = "alice:my-branch"
   /\ contains ":" "alice:my-branch" = false)
  \/ exists login,
       JStr "alice" = JStr login
       /\ "alice:my-branch" = (login ++ String ":" "my-branch")%string
       /\ contains ":" login = false
       /\ contains ":" "my-branch" = false.
Proof.
  apply (resolved_parts_rebuild_the_specifier "alice:my-branch"
           (JStr "alice") "my-branch").
  reflexivity.
Defined.

Lemma run_without_created_at_stops_the_driver_witness :
  cancel_selected (github feature_pages no_pull accepts) same_text superset
    ["queued"] true [run_json run41; JDict [("id", JInt 1)]] start
  = (inl (KeyError "created_at"), start).
Proof.
  apply (run_without_created_at_stops_the_driver
           (github feature_pages no_pull accepts) same_text superset
           ["queued"] true [run_json run41; JDict [("id", JInt 1)]] start).
  - repeat constructor; eexists; reflexivity.
  - right. left. eexists. split; reflexivity.
Defined.
